(** * QuizMaster: the quiz session of [script.js]

    A shallow embedding of the session logic of [src/script.js] (the first,
    current copy of the script: [CONSTANTS], [STATE], [startGame],
    [renderQuestion], [startTimer], [handleAnswer], [addXP],
    [handleTimeOut], [nextQuestion], the three lifelines, [endGame],
    [stateReset] and [goHome]) and the properties of it that the
    specification states.

    The global [STATE] object, the few DOM properties the logic reads back
    (the Next button's [disabled] flag, the option cards with their
    [onclick] handler, [innerHTML] and visibility) and the pending timers of
    the browser's event loop are one record, threaded explicitly through
    every function.  Sounds, toasts, confetti, the chart, CSS classes and
    the score and streak labels do not feed back into the logic and are
    left out.

    Around the session, [showReview], [fetchQuestions], [startNextSet],
    [saveUserData], [loadUserData], [syncCloudData] and [saveHighScore]
    are embedded as functions of their own, with the Firestore collections
    and [localStorage] as explicit arguments and results. *)

From Stdlib Require Import ZArith List String Ascii Bool Lia Permutation.
From Stdlib Require Import Floats.SpecFloat.
Import ListNotations.
Open Scope Z_scope.

(** ** JavaScript numbers

    Every JavaScript number is an IEEE 754 binary64 value.  The score
    multiplier [1 + k * 0.1] and the accuracy quotient are not integers, so
    those two computations are carried out on [spec_float] with the
    correctly rounded operations of [SpecFloat].  The fields of [STATE] only
    ever hold integers (they start at integer literals and change by [++],
    [--], [+= 10] and [+= Math.round(...)]); they are kept in [Z], which is
    exact below 2^53. *)

Module JS.

Definition prec : Z := 53.
Definition emax : Z := 1024.

Definition number : Set := spec_float.

(** The number denoted by an integer (rounded to nearest even when it
    does not fit in 53 bits). *)
Definition of_Z (z : Z) : number := binary_normalize prec emax z 0 false.

Definition add : number -> number -> number := SFadd prec emax.
Definition mul : number -> number -> number := SFmul prec emax.
Definition div : number -> number -> number := SFdiv prec emax.

(** A decimal literal [n/d], such as [0.1] for [lit 1 10]: the double
    nearest to the quotient. *)
Definition lit (n d : Z) : number := div (of_Z n) (of_Z d).

(** The integer a finite double [(-1)^s * m * 2^e] carries in its
    mantissa. *)
Definition signed (s : bool) (m : positive) : Z :=
  if s then Z.neg m else Z.pos m.

(** [Math.floor]: the greatest integer below or equal to the argument.
    NaN and the infinities, which none of the computations below produces,
    are mapped to 0. *)
Definition Math_floor (x : number) : Z :=
  match x with
  | S754_finite s m e =>
      if 0 <=? e then signed s m * 2 ^ e else signed s m / 2 ^ (- e)
  | _ => 0
  end.

(** [Math.round]: the nearest integer, ties towards +infinity, that is
    [floor (x + 1/2)] computed exactly. *)
Definition Math_round (x : number) : Z :=
  match x with
  | S754_finite s m e =>
      if 0 <=? e then signed s m * 2 ^ e
      else (2 * signed s m + 2 ^ (- e)) / 2 ^ (1 - e)
  | _ => 0
  end.

(** [String.prototype.toLowerCase] on ASCII letters. *)
Definition lower (c : ascii) : ascii :=
  let n := nat_of_ascii c in
  if (Nat.leb 65 n && Nat.leb n 90)%bool then ascii_of_nat (n + 32) else c.

Fixpoint toLowerCase (s : string) : string :=
  match s with
  | EmptyString => EmptyString
  | String c r => String (lower c) (toLowerCase r)
  end.

(** [a[i]]: [undefined] (here [None]) outside the array. *)
Definition index {A : Type} (a : list A) (i : Z) : option A :=
  if i <? 0 then None else nth_error a (Z.to_nat i).

(** [a[i] = v] for an index inside the array (the script never writes
    outside). *)
Fixpoint assign {A : Type} (a : list A) (i : nat) (v : A) : list A :=
  match a, i with
  | [], _ => []
  | _ :: r, O => v :: r
  | x :: r, S j => x :: assign r j v
  end.

End JS.

(** ** [CONSTANTS] *)

Module CONSTANTS.

Definition TIMER_EASY : Z := 60.
Definition TIMER_MEDIUM : Z := 50.
Definition TIMER_HARD : Z := 40.
Definition TIMER_BASE : Z := 15.
Definition POINTS_PER_Q : Z := 10.
Definition STREAK_BONUS : Z := 5.

End CONSTANTS.

(** ** [innerHTML]

    [renderQuestion] assigns an answer to [btn.innerHTML], and [use5050]
    reads [c.innerHTML] back.  The browser parses what is assigned and
    serialises what is read: in a text, character references are decoded by
    the parser, and [&], [<] and [>] are escaped by the serialiser (quotes
    are not, outside attributes).  So ["Don&#039;t Stop"], as the Open
    Trivia Database writes it and [autoSeedQuestions] stores it, is read
    back as ["Don't Stop"], and ["Q&A"] as ["Q&amp;A"].

    [HTML.read] is this round trip for texts: strings of ASCII characters
    without tags, whose character references are [&amp;], [&lt;], [&gt;],
    [&quot;], [&apos;] or decimal ([&#39;], for a printable ASCII
    character), each with its semicolon.  Tags, other named references and
    characters beyond ASCII are outside of it. *)

Module HTML.

Definition digit (c : ascii) : option nat :=
  let n := nat_of_ascii c in
  if ((48 <=? n) && (n <=? 57))%nat then Some (n - 48)%nat else None.

(** The digits up to the semicolon: their value, and how many characters
    were read, the semicolon included. *)
Fixpoint decimal (s : string) (acc len : nat) : option (nat * nat) :=
  match s with
  | EmptyString => None
  | String c rest =>
      if Ascii.eqb c ";" then
        if Nat.eqb len 0 then None else Some (acc, S len)
      else
        match digit c with
        | Some d => decimal rest (10 * acc + d) (S len)
        | None => None
        end
  end.

(** The character reference that starts after an [&], if there is one:
    the character it stands for and the number of characters it takes. *)
Definition reference (rest : string) : option (ascii * nat) :=
  if prefix "amp;" rest then Some ("&"%char, 4%nat)
  else if prefix "lt;" rest then Some ("<"%char, 3%nat)
  else if prefix "gt;" rest then Some (">"%char, 3%nat)
  else if prefix "quot;" rest then Some (ascii_of_nat 34, 5%nat)
  else if prefix "apos;" rest then Some ("'"%char, 5%nat)
  else
    match rest with
    | String c digits =>
        if Ascii.eqb c "#" then
          match decimal digits 0 0 with
          | Some (n, len) =>
              if ((32 <=? n) && (n <=? 126))%nat
              then Some (ascii_of_nat n, S len)
              else None
          | None => None
          end
        else None
    | EmptyString => None
    end.

(** The text the parser makes of [s]; [skip] characters of [s] belong to
    a reference that was already decoded. *)
Fixpoint decode (skip : nat) (s : string) : string :=
  match s with
  | EmptyString => EmptyString
  | String c rest =>
      match skip with
      | S k => decode k rest
      | O =>
          if Ascii.eqb c "&" then
            match reference rest with
            | Some (ch, len) => String ch (decode len rest)
            | None => String c (decode 0 rest)
            end
          else String c (decode 0 rest)
      end
  end.

(** The serialisation of a text node. *)
Fixpoint escape (s : string) : string :=
  match s with
  | EmptyString => EmptyString
  | String c rest =>
      if Ascii.eqb c "&" then ("&amp;" ++ escape rest)%string
      else if Ascii.eqb c "<" then ("&lt;" ++ escape rest)%string
      else if Ascii.eqb c ">" then ("&gt;" ++ escape rest)%string
      else String c (escape rest)
  end.

(** [el.innerHTML], after [el.innerHTML = s]. *)
Definition read (s : string) : string := escape (decode 0 s).

(** A printable ASCII character other than [&], [<] and [>]. *)
Definition plainChar (c : ascii) : bool :=
  let n := nat_of_ascii c in
  ((32 <=? n) && (n <=? 126))%nat &&
  negb (Ascii.eqb c "&") && negb (Ascii.eqb c "<") && negb (Ascii.eqb c ">").

(** A text that is read back as it was assigned. *)
Fixpoint plain (s : string) : bool :=
  match s with
  | EmptyString => true
  | String c rest => plainChar c && plain rest
  end.

End HTML.

(** ** The data model *)

(** [userSelected] of a question: absent until the question is resolved,
    then the chosen answer, or [null] after a timeout. *)
Inductive Selected : Set :=
| undefined
| null
| chosen (answer : string).

(** A question as [fetchQuestions] stores it: the Firestore document plus
    [answers], the shuffled list of all its answers. *)
Record Question : Set := mkQuestion {
  question : string;
  category : string;
  correct_answer : string;
  incorrect_answers : list string;
  answers : list string;
  userSelected : Selected
}.

Definition set_userSelected (v : Selected) (q : Question) : Question :=
  mkQuestion (question q) (category q) (correct_answer q)
    (incorrect_answers q) (answers q) v.

(** [STATE.lifelines]. *)
Record Lifelines : Set := mkLifelines {
  fifty : bool;
  freeze : bool;
  skip : bool
}.

(** An [.option-card] element.  [onclick] is either [null] or the closure
    [() => handleAnswer(btn, ans, q.correct_answer)], kept as the two
    strings it captured.  [innerHTML] is the string that was assigned to
    the property; what the property gives when it is read is [HTML.read] of
    it. *)
Record Card : Set := mkCard {
  innerHTML : string;
  onclick : option (string * string);
  hidden : bool
}.

(** The [.final-message] chosen by [endGame]. *)
Inductive Message : Set :=
| QuizMaster
| GoodJob
| KeepPracticing
| TryAgain.

(** What [endGame] writes on the result screen. *)
Record Summary : Set := mkSummary {
  final_score : Z;
  correct_count : Z;
  wrong_count : Z;
  accuracy_percent : Z;
  final_message : Message
}.

(** The whole state: the fields of [STATE] under their own names (with
    [currentQuestionIndex], the property [stateReset] creates, and
    [STATE.config.difficulty]), then the DOM, then the timers.

    - [timer] is [STATE.timer], the handle of the last interval, and
      [intervals] the handles that are still live; [nextId] is the next
      handle [setInterval] returns.
    - [cardsGen] numbers the renderings of the option cards, so that a
      callback holding the cards of an earlier rendering can be told from
      one holding the current ones.
    - [unlocks] are the pending 800 ms callbacks of [handleAnswer], oldest
      first, each with the rendering whose cards it captured;
      [unfreezes] counts the pending 10 s callbacks of [useFreeze]. *)
Record State : Type := mkState {
  questions : list Question;
  currIndex : Z;
  currentQuestionIndex : option Z;
  score : Z;
  streak : Z;
  timer : option nat;
  timeLeft : Z;
  difficulty : string;
  lifelines : Lifelines;
  isFrozen : bool;
  xp : Z;
  level : Z;
  correctCount : Z;
  wrongCount : Z;
  xpGained : Z;
  nextBtn_disabled : bool;
  cards : list Card;
  cardsGen : nat;
  result : option Summary;
  intervals : list nat;
  nextId : nat;
  unlocks : list nat;
  unfreezes : nat
}.

(** Field assignment, one function per field. *)
Definition set_questions (v : list Question) (s : State) : State :=
  mkState v (currIndex s) (currentQuestionIndex s) (score s) (streak s)
    (timer s) (timeLeft s) (difficulty s) (lifelines s) (isFrozen s) (xp s)
    (level s) (correctCount s) (wrongCount s) (xpGained s)
    (nextBtn_disabled s) (cards s) (cardsGen s) (result s) (intervals s)
    (nextId s) (unlocks s) (unfreezes s).

Definition set_currIndex (v : Z) (s : State) : State :=
  mkState (questions s) v (currentQuestionIndex s) (score s) (streak s)
    (timer s) (timeLeft s) (difficulty s) (lifelines s) (isFrozen s) (xp s)
    (level s) (correctCount s) (wrongCount s) (xpGained s)
    (nextBtn_disabled s) (cards s) (cardsGen s) (result s) (intervals s)
    (nextId s) (unlocks s) (unfreezes s).

Definition set_currentQuestionIndex (v : option Z) (s : State) : State :=
  mkState (questions s) (currIndex s) v (score s) (streak s) (timer s)
    (timeLeft s) (difficulty s) (lifelines s) (isFrozen s) (xp s) (level s)
    (correctCount s) (wrongCount s) (xpGained s) (nextBtn_disabled s)
    (cards s) (cardsGen s) (result s) (intervals s) (nextId s) (unlocks s)
    (unfreezes s).

Definition set_score (v : Z) (s : State) : State :=
  mkState (questions s) (currIndex s) (currentQuestionIndex s) v (streak s)
    (timer s) (timeLeft s) (difficulty s) (lifelines s) (isFrozen s) (xp s)
    (level s) (correctCount s) (wrongCount s) (xpGained s)
    (nextBtn_disabled s) (cards s) (cardsGen s) (result s) (intervals s)
    (nextId s) (unlocks s) (unfreezes s).

Definition set_streak (v : Z) (s : State) : State :=
  mkState (questions s) (currIndex s) (currentQuestionIndex s) (score s) v
    (timer s) (timeLeft s) (difficulty s) (lifelines s) (isFrozen s) (xp s)
    (level s) (correctCount s) (wrongCount s) (xpGained s)
    (nextBtn_disabled s) (cards s) (cardsGen s) (result s) (intervals s)
    (nextId s) (unlocks s) (unfreezes s).

Definition set_timer (v : option nat) (s : State) : State :=
  mkState (questions s) (currIndex s) (currentQuestionIndex s) (score s)
    (streak s) v (timeLeft s) (difficulty s) (lifelines s) (isFrozen s) (xp s)
    (level s) (correctCount s) (wrongCount s) (xpGained s)
    (nextBtn_disabled s) (cards s) (cardsGen s) (result s) (intervals s)
    (nextId s) (unlocks s) (unfreezes s).

Definition set_timeLeft (v : Z) (s : State) : State :=
  mkState (questions s) (currIndex s) (currentQuestionIndex s) (score s)
    (streak s) (timer s) v (difficulty s) (lifelines s) (isFrozen s) (xp s)
    (level s) (correctCount s) (wrongCount s) (xpGained s)
    (nextBtn_disabled s) (cards s) (cardsGen s) (result s) (intervals s)
    (nextId s) (unlocks s) (unfreezes s).

Definition set_difficulty (v : string) (s : State) : State :=
  mkState (questions s) (currIndex s) (currentQuestionIndex s) (score s)
    (streak s) (timer s) (timeLeft s) v (lifelines s) (isFrozen s) (xp s)
    (level s) (correctCount s) (wrongCount s) (xpGained s)
    (nextBtn_disabled s) (cards s) (cardsGen s) (result s) (intervals s)
    (nextId s) (unlocks s) (unfreezes s).

Definition set_lifelines (v : Lifelines) (s : State) : State :=
  mkState (questions s) (currIndex s) (currentQuestionIndex s) (score s)
    (streak s) (timer s) (timeLeft s) (difficulty s) v (isFrozen s) (xp s)
    (level s) (correctCount s) (wrongCount s) (xpGained s)
    (nextBtn_disabled s) (cards s) (cardsGen s) (result s) (intervals s)
    (nextId s) (unlocks s) (unfreezes s).

Definition set_isFrozen (v : bool) (s : State) : State :=
  mkState (questions s) (currIndex s) (currentQuestionIndex s) (score s)
    (streak s) (timer s) (timeLeft s) (difficulty s) (lifelines s) v (xp s)
    (level s) (correctCount s) (wrongCount s) (xpGained s)
    (nextBtn_disabled s) (cards s) (cardsGen s) (result s) (intervals s)
    (nextId s) (unlocks s) (unfreezes s).

Definition set_xp (v : Z) (s : State) : State :=
  mkState (questions s) (currIndex s) (currentQuestionIndex s) (score s)
    (streak s) (timer s) (timeLeft s) (difficulty s) (lifelines s)
    (isFrozen s) v (level s) (correctCount s) (wrongCount s) (xpGained s)
    (nextBtn_disabled s) (cards s) (cardsGen s) (result s) (intervals s)
    (nextId s) (unlocks s) (unfreezes s).

Definition set_level (v : Z) (s : State) : State :=
  mkState (questions s) (currIndex s) (currentQuestionIndex s) (score s)
    (streak s) (timer s) (timeLeft s) (difficulty s) (lifelines s)
    (isFrozen s) (xp s) v (correctCount s) (wrongCount s) (xpGained s)
    (nextBtn_disabled s) (cards s) (cardsGen s) (result s) (intervals s)
    (nextId s) (unlocks s) (unfreezes s).

Definition set_correctCount (v : Z) (s : State) : State :=
  mkState (questions s) (currIndex s) (currentQuestionIndex s) (score s)
    (streak s) (timer s) (timeLeft s) (difficulty s) (lifelines s)
    (isFrozen s) (xp s) (level s) v (wrongCount s) (xpGained s)
    (nextBtn_disabled s) (cards s) (cardsGen s) (result s) (intervals s)
    (nextId s) (unlocks s) (unfreezes s).

Definition set_wrongCount (v : Z) (s : State) : State :=
  mkState (questions s) (currIndex s) (currentQuestionIndex s) (score s)
    (streak s) (timer s) (timeLeft s) (difficulty s) (lifelines s)
    (isFrozen s) (xp s) (level s) (correctCount s) v (xpGained s)
    (nextBtn_disabled s) (cards s) (cardsGen s) (result s) (intervals s)
    (nextId s) (unlocks s) (unfreezes s).

Definition set_xpGained (v : Z) (s : State) : State :=
  mkState (questions s) (currIndex s) (currentQuestionIndex s) (score s)
    (streak s) (timer s) (timeLeft s) (difficulty s) (lifelines s)
    (isFrozen s) (xp s) (level s) (correctCount s) (wrongCount s) v
    (nextBtn_disabled s) (cards s) (cardsGen s) (result s) (intervals s)
    (nextId s) (unlocks s) (unfreezes s).

Definition set_nextBtn_disabled (v : bool) (s : State) : State :=
  mkState (questions s) (currIndex s) (currentQuestionIndex s) (score s)
    (streak s) (timer s) (timeLeft s) (difficulty s) (lifelines s)
    (isFrozen s) (xp s) (level s) (correctCount s) (wrongCount s) (xpGained s)
    v (cards s) (cardsGen s) (result s) (intervals s) (nextId s) (unlocks s)
    (unfreezes s).

Definition set_cards (v : list Card) (s : State) : State :=
  mkState (questions s) (currIndex s) (currentQuestionIndex s) (score s)
    (streak s) (timer s) (timeLeft s) (difficulty s) (lifelines s)
    (isFrozen s) (xp s) (level s) (correctCount s) (wrongCount s) (xpGained s)
    (nextBtn_disabled s) v (cardsGen s) (result s) (intervals s) (nextId s)
    (unlocks s) (unfreezes s).

Definition set_cardsGen (v : nat) (s : State) : State :=
  mkState (questions s) (currIndex s) (currentQuestionIndex s) (score s)
    (streak s) (timer s) (timeLeft s) (difficulty s) (lifelines s)
    (isFrozen s) (xp s) (level s) (correctCount s) (wrongCount s) (xpGained s)
    (nextBtn_disabled s) (cards s) v (result s) (intervals s) (nextId s)
    (unlocks s) (unfreezes s).

Definition set_result (v : option Summary) (s : State) : State :=
  mkState (questions s) (currIndex s) (currentQuestionIndex s) (score s)
    (streak s) (timer s) (timeLeft s) (difficulty s) (lifelines s)
    (isFrozen s) (xp s) (level s) (correctCount s) (wrongCount s) (xpGained s)
    (nextBtn_disabled s) (cards s) (cardsGen s) v (intervals s) (nextId s)
    (unlocks s) (unfreezes s).

Definition set_intervals (v : list nat) (s : State) : State :=
  mkState (questions s) (currIndex s) (currentQuestionIndex s) (score s)
    (streak s) (timer s) (timeLeft s) (difficulty s) (lifelines s)
    (isFrozen s) (xp s) (level s) (correctCount s) (wrongCount s) (xpGained s)
    (nextBtn_disabled s) (cards s) (cardsGen s) (result s) v (nextId s)
    (unlocks s) (unfreezes s).

Definition set_nextId (v : nat) (s : State) : State :=
  mkState (questions s) (currIndex s) (currentQuestionIndex s) (score s)
    (streak s) (timer s) (timeLeft s) (difficulty s) (lifelines s)
    (isFrozen s) (xp s) (level s) (correctCount s) (wrongCount s) (xpGained s)
    (nextBtn_disabled s) (cards s) (cardsGen s) (result s) (intervals s) v
    (unlocks s) (unfreezes s).

Definition set_unlocks (v : list nat) (s : State) : State :=
  mkState (questions s) (currIndex s) (currentQuestionIndex s) (score s)
    (streak s) (timer s) (timeLeft s) (difficulty s) (lifelines s)
    (isFrozen s) (xp s) (level s) (correctCount s) (wrongCount s) (xpGained s)
    (nextBtn_disabled s) (cards s) (cardsGen s) (result s) (intervals s)
    (nextId s) v (unfreezes s).

Definition set_unfreezes (v : nat) (s : State) : State :=
  mkState (questions s) (currIndex s) (currentQuestionIndex s) (score s)
    (streak s) (timer s) (timeLeft s) (difficulty s) (lifelines s)
    (isFrozen s) (xp s) (level s) (correctCount s) (wrongCount s) (xpGained s)
    (nextBtn_disabled s) (cards s) (cardsGen s) (result s) (intervals s)
    (nextId s) (unlocks s) v.

(** ** Handlers

    A handler either returns, or a [TypeError] escapes from it (a property
    read on [undefined]); the assignments made before the throw stay, and
    the event loop goes on with the next event. *)
Inductive Completion : Type :=
| Normal (s : State)
| Throw (s : State).

Definition state_of (c : Completion) : State :=
  match c with
  | Normal s => s
  | Throw s => s
  end.

(** [STATE.questions[STATE.currIndex]]. *)
Definition current (s : State) : option Question :=
  JS.index (questions s) (currIndex s).

(** [clearInterval(h)]. *)
Definition clearInterval (h : option nat) (s : State) : State :=
  match h with
  | Some id => set_intervals (remove Nat.eq_dec id (intervals s)) s
  | None => s
  end.

(** [startTimer]: cancels the interval of [STATE.timer] and starts a new
    one, whose callback is [tick] below. *)
Definition startTimer (s : State) : State :=
  let s := clearInterval (timer s) s in
  let id := nextId s in
  set_timer (Some id) (set_intervals (id :: intervals s) (set_nextId (S id) s)).

(** The starting time of a question, by [STATE.config.difficulty]. *)
Definition duration (d : string) : Z :=
  let difficulty := JS.toLowerCase d in
  if (difficulty =? "easy")%string then CONSTANTS.TIMER_EASY
  else if (difficulty =? "medium")%string then CONSTANTS.TIMER_MEDIUM
  else if (difficulty =? "hard")%string then CONSTANTS.TIMER_HARD
  else CONSTANTS.TIMER_BASE.

(** The card [renderQuestion] creates for the answer [ans] of [q]. *)
Definition optionCard (q : Question) (ans : string) : Card :=
  mkCard ans (Some (ans, correct_answer q)) false.

(** [renderQuestion]: replaces the option cards by those of the current
    question, resets the clock and [isFrozen], starts the countdown.  With
    no current question, [q.question] throws before anything is changed. *)
Definition renderQuestion (s : State) : Completion :=
  match current s with
  | None => Throw s
  | Some q =>
      let s := set_cards (map (optionCard q) (answers q)) s in
      let s := set_cardsGen (S (cardsGen s)) s in
      let s := set_timeLeft (duration (difficulty s)) s in
      let s := set_isFrozen false s in
      Normal (startTimer s)
  end.

(** [c.onclick = null] on every card. *)
Definition unclick (c : Card) : Card := mkCard (innerHTML c) None (hidden c).

(** [STATE.questions[STATE.currIndex].userSelected = v], for a current
    question that exists. *)
Definition record_choice (v : Selected) (q : Question) (s : State) : State :=
  set_questions
    (JS.assign (questions s) (Z.to_nat (currIndex s)) (set_userSelected v q)) s.

(** [handleTimeOut]. *)
Definition handleTimeOut (s : State) : Completion :=
  match current s with
  | None => Throw s
  | Some q =>
      let s := record_choice null q s in
      let s := set_cards (map unclick (cards s)) s in
      let s := set_streak 0 s in
      Normal (set_nextBtn_disabled false s)
  end.

(** The callback of the interval started by [startTimer]. *)
Definition tick (s : State) : Completion :=
  if isFrozen s then Normal s
  else
    let s := set_timeLeft (timeLeft s - 1) s in
    if timeLeft s <=? 0 then handleTimeOut (clearInterval (timer s) s)
    else Normal s.

(** [addXP] (the auto-save to Firestore left out). *)
Definition addXP (amount : Z) (s : State) : State :=
  let s := set_xp (xp s + amount) s in
  let nextLevel :=
    JS.Math_floor (JS.div (JS.of_Z (xp s)) (JS.of_Z 100)) + 1 in
  if level s <? nextLevel then set_level nextLevel s else s.

(** [1 + (Math.floor(STATE.streak / 3) * 0.1)]. *)
Definition streakMult (streak : Z) : JS.number :=
  JS.add (JS.of_Z 1)
    (JS.mul (JS.of_Z (JS.Math_floor (JS.div (JS.of_Z streak) (JS.of_Z 3))))
       (JS.lit 1 10)).

(** [Math.round((CONSTANTS.POINTS_PER_Q + timeBonus) * streakMult)] with
    [timeBonus = Math.max(0, STATE.timeLeft)]. *)
Definition points (streak timeLeft : Z) : Z :=
  let timeBonus := Z.max 0 timeLeft in
  JS.Math_round
    (JS.mul (JS.add (JS.of_Z CONSTANTS.POINTS_PER_Q) (JS.of_Z timeBonus))
       (streakMult streak)).

(** [handleAnswer(btn, selected, correct)].  [btn] only receives a CSS
    class.  The callback scheduled at the end captures [cards], the cards
    on the page at this moment. *)
Definition handleAnswer (selected correct : string) (s : State) : Completion :=
  if negb (nextBtn_disabled s) then Normal s
  else
    let s := clearInterval (timer s) s in
    match current s with
    | None => Throw s
    | Some q =>
        let s := record_choice (chosen selected) q s in
        let s :=
          if (selected =? correct)%string then
            let points := points (streak s) (timeLeft s) in
            let s := set_score (score s + points) s in
            let s := set_streak (streak s + 1) s in
            let s := set_correctCount (correctCount s + 1) s in
            addXP points s
          else
            let s := set_streak 0 s in
            set_wrongCount (wrongCount s + 1) s in
        Normal (set_unlocks (unlocks s ++ [cardsGen s]) s)
    end.

(** The callback [handleAnswer] schedules after 800 ms: it takes the
    handlers off the cards it captured, which are the cards on the page
    only if no question was rendered since, and enables the Next button. *)
Definition unlock (gen : nat) (s : State) : State :=
  let s :=
    if Nat.eqb gen (cardsGen s) then set_cards (map unclick (cards s)) s
    else s in
  set_nextBtn_disabled false s.

(** The accuracy [endGame] computes:
    [totalAnswered > 0 ? Math.round((correctCount / totalAnswered) * 100) : 0]. *)
Definition accuracy (correctCount wrongCount : Z) : Z :=
  let totalAnswered := correctCount + wrongCount in
  if 0 <? totalAnswered then
    JS.Math_round
      (JS.mul (JS.div (JS.of_Z correctCount) (JS.of_Z totalAnswered))
         (JS.of_Z 100))
  else 0.

Definition finalMessage (accuracy : Z) : Message :=
  if 80 <=? accuracy then QuizMaster
  else if 60 <=? accuracy then GoodJob
  else if 40 <=? accuracy then KeepPracticing
  else TryAgain.

(** [endGame] (leaderboard write and chart left out). *)
Definition endGame (s : State) : State :=
  let sessionXP := score s in
  let s := set_xpGained sessionXP s in
  let accuracy := accuracy (correctCount s) (wrongCount s) in
  set_result
    (Some (mkSummary (score s) (correctCount s) (wrongCount s) accuracy
             (finalMessage accuracy))) s.

(** [nextQuestion]. *)
Definition nextQuestion (s : State) : Completion :=
  let s := set_currIndex (currIndex s + 1) s in
  let s := set_nextBtn_disabled true s in
  if currIndex s <? Z.of_nat (List.length (questions s)) then renderQuestion s
  else Normal (endGame s).

(** *** Lifelines *)

Definition set_fifty (v : bool) (l : Lifelines) : Lifelines :=
  mkLifelines v (freeze l) (skip l).

Definition set_freeze (v : bool) (l : Lifelines) : Lifelines :=
  mkLifelines (fifty l) v (skip l).

Definition set_skip (v : bool) (l : Lifelines) : Lifelines :=
  mkLifelines (fifty l) (freeze l) v.

(** The positions, in page order, of the cards whose [innerHTML], as it
    is read back, differs from [correct]: the elements of [wrongCards],
    each a reference to a card of the page. *)
Definition wrongCards (correct : string) (cards : list Card) : list nat :=
  filter
    (fun i =>
       match nth_error cards i with
       | Some c => negb (HTML.read (innerHTML c) =? correct)%string
       | None => false
       end)
    (seq 0 (List.length cards)).

(** [c.style.visibility = 'hidden']. *)
Definition hide (c : Card) : Card := mkCard (innerHTML c) (onclick c) true.

(** [if (wrongCards[i]) wrongCards[i].style.visibility = 'hidden']. *)
Definition hideWrong (wrong : list nat) (i : nat) (cards : list Card)
  : list Card :=
  match nth_error wrong i with
  | Some k =>
      match nth_error cards k with
      | Some c => JS.assign cards k (hide c)
      | None => cards
      end
  | None => cards
  end.

(** [use5050].  With no current question, the filter callback throws on
    the first card it is given, and is never called on an empty page. *)
Definition use5050 (s : State) : Completion :=
  if negb (fifty (lifelines s)) then Normal s
  else
    match current s, cards s with
    | None, _ :: _ => Throw s
    | None, [] => Normal (set_lifelines (set_fifty false (lifelines s)) s)
    | Some q, _ =>
        let wrong := wrongCards (correct_answer q) (cards s) in
        let s := set_cards (hideWrong wrong 1 (hideWrong wrong 0 (cards s))) s in
        Normal (set_lifelines (set_fifty false (lifelines s)) s)
    end.

(** [useFreeze]; the callback it schedules is [unfreeze]. *)
Definition useFreeze (s : State) : State :=
  if negb (freeze (lifelines s)) then s
  else
    let s := set_isFrozen true s in
    let s := set_lifelines (set_freeze false (lifelines s)) s in
    set_unfreezes (S (unfreezes s)) s.

Definition unfreeze (s : State) : State := set_isFrozen false s.

(** [useSkip]. *)
Definition useSkip (s : State) : Completion :=
  if negb (skip (lifelines s)) then Normal s
  else
    let s := set_lifelines (set_skip false (lifelines s)) s in
    let s := set_score (score s + CONSTANTS.POINTS_PER_Q) s in
    let s := clearInterval (timer s) s in
    nextQuestion s.

(** *** Starting and leaving a session *)

(** [startGame]. *)
Definition startGame (s : State) : Completion :=
  let s := set_currIndex 0 s in
  let s := set_score 0 s in
  let s := set_streak 0 s in
  let s := set_correctCount 0 s in
  let s := set_wrongCount 0 s in
  let s := set_lifelines (mkLifelines true true true) s in
  let s := set_isFrozen false s in
  renderQuestion s.

(** [stateReset]: the second assignment creates the property
    [currentQuestionIndex]; [currIndex] is not touched. *)
Definition stateReset (s : State) : State :=
  let s := set_score 0 s in
  let s := set_currentQuestionIndex (Some 0) s in
  set_questions [] s.

(** [goHome]: [stateReset], then the start screen is shown. *)
Definition goHome (s : State) : State := stateReset s.

(** ** The event loop

    What can happen on the page, one constructor per event source. *)
Inductive Event : Type :=
| Start (d : string) (qs : list Question)
    (* the quiz form is submitted with difficulty [d], and
       [fetchQuestions] delivers [qs] *)
| Click (i : nat)    (* click, or key 1-4, on the i-th option card *)
| Tick (id : nat)    (* the interval with handle [id] fires *)
| Unlock             (* the oldest pending 800 ms callback fires *)
| Unfreeze           (* the oldest pending 10 s callback fires *)
| Next               (* the Next button, or Enter / Space *)
| FiftyFifty         (* the three lifeline buttons *)
| Freeze
| Skip
| Home.              (* Home, Restart or a confirmed Quit *)

(** The handler the browser runs for an event.  A disabled Next button, a
    card without [onclick], a cancelled interval and an empty timer queue
    run nothing.  [fetchQuestions] throws on an empty selection before it
    assigns [STATE.questions], and [validateAndStart] then does not call
    [startGame]. *)
Definition dispatch (e : Event) (s : State) : Completion :=
  match e with
  | Start d qs =>
      let s := set_difficulty d s in
      match qs with
      | [] => Normal s
      | _ :: _ => startGame (set_questions qs s)
      end
  | Click i =>
      match nth_error (cards s) i with
      | Some c =>
          match onclick c with
          | Some (ans, correct) => handleAnswer ans correct s
          | None => Normal s
          end
      | None => Normal s
      end
  | Tick id =>
      if existsb (Nat.eqb id) (intervals s) then tick s else Normal s
  | Unlock =>
      match unlocks s with
      | gen :: rest => Normal (unlock gen (set_unlocks rest s))
      | [] => Normal s
      end
  | Unfreeze =>
      match unfreezes s with
      | S n => Normal (unfreeze (set_unfreezes n s))
      | O => Normal s
      end
  | Next => if nextBtn_disabled s then Normal s else nextQuestion s
  | FiftyFifty => use5050 s
  | Freeze => Normal (useFreeze s)
  | Skip => useSkip s
  | Home => Normal (goHome s)
  end.

Definition step (e : Event) (s : State) : State := state_of (dispatch e s).

Definition run (es : list Event) (s : State) : State :=
  fold_left (fun s e => step e s) es s.

(** [STATE] as the script initialises it.  [index.html] is not among the
    sources: the Next button is taken to start disabled, which is also how
    [nextQuestion] leaves it for every question. *)
Definition STATE : State :=
  mkState [] 0 None 0 0 None CONSTANTS.TIMER_BASE ""%string
    (mkLifelines true true true)
    false 0 1 0 0 0 true [] 0 None [] 1 [] 0.

(** ** Predicates used by the statements *)

(** The handle in [STATE.timer] was returned by an earlier [setInterval],
    and no other countdown is live. *)
Definition one_countdown (s : State) : Prop :=
  (forall id, timer s = Some id -> (id < nextId s)%nat) /\
  (forall id, In id (intervals s) -> timer s = Some id).

(** The cards on the page show the answers of [q], none hidden yet. *)
Definition shows (s : State) (q : Question) : Prop :=
  map innerHTML (cards s) = answers q /\
  Forall (fun c => hidden c = false) (cards s).

(** The answers of a question as [fetchQuestions] builds them: the
    incorrect ones and the correct one, in some order. *)
Definition shuffled (q : Question) : Prop :=
  Permutation (answers q) (incorrect_answers q ++ [correct_answer q]).

(** The answers that are hidden on the page. *)
Definition hiddenAnswers (s : State) : list string :=
  map innerHTML (filter hidden (cards s)).

(** No timer callback of an earlier session or question is pending and the
    Next button is disabled: the page before a session starts. *)
Definition idle (s : State) : Prop :=
  nextBtn_disabled s = true /\ unlocks s = [].

(** One question answered and left: the click on card [i], the 800 ms
    callback, the Next button. *)
Definition answerAndAdvance (i : nat) : list Event := [Click i; Unlock; Next].

Definition session (d : string) (qs : list Question) (picks : list nat)
  : list Event :=
  Start d qs :: flat_map answerAndAdvance picks.

(** [picks] names a card of each of the first questions of [qs]. *)
Fixpoint validPicks (qs : list Question) (picks : list nat) : Prop :=
  match picks, qs with
  | [], _ => True
  | i :: picks', q :: qs' =>
      (i < List.length (answers q))%nat /\ validPicks qs' picks'
  | _ :: _, [] => False
  end.

(** The tick of the interval [id] takes the clock to 0: the question times
    out. *)
Definition timesOut (id : nat) (s : State) : bool :=
  existsb (Nat.eqb id) (intervals s) && negb (isFrozen s) &&
  (timeLeft s - 1 <=? 0).

(** What may happen in a session of answered questions: anything but a new
    start, the way home, the skip lifeline, a tick that times the question
    out, and a click while the 800 ms callback of a submission is pending
    (in a session started on the idle page that is a second click on a
    question, before the callback of the first has run). *)
Definition permitted (e : Event) (s : State) : bool :=
  match e with
  | Start _ _ | Home | Skip => false
  | Tick id => negb (timesOut id s)
  | Click _ =>
      match unlocks s with
      | [] => true
      | _ :: _ => false
      end
  | Unlock | Unfreeze | Next | FiftyFifty | Freeze => true
  end.

(** Every event of [es] is permitted when it happens. *)
Fixpoint played (es : list Event) (s : State) : bool :=
  match es with
  | [] => true
  | e :: rest => permitted e s && played rest (step e s)
  end.

(** An event of the running session: anything but a new start. *)
Definition inSession (e : Event) : bool :=
  match e with
  | Start _ _ => false
  | _ => true
  end.

Definition isUnfreeze (e : Event) : bool :=
  match e with
  | Unfreeze => true
  | _ => false
  end.

(** The state without its count of pending unfreeze callbacks. *)
Definition clock (s : State) : State := set_unfreezes 0 s.

(** The accuracy as the specification writes it,
    [round(100 * correctCount / (correctCount + wrongCount))], 0 for an
    empty denominator, in the same arithmetic. *)
Definition accuracyPercent (correctCount wrongCount : Z) : Z :=
  let denominator := correctCount + wrongCount in
  if 0 <? denominator then
    JS.Math_round
      (JS.div (JS.mul (JS.of_Z 100) (JS.of_Z correctCount))
         (JS.of_Z denominator))
  else 0.

(** The same quantity in exact integer arithmetic:
    [floor (100 c / (c + w) + 1/2)]. *)
Definition accuracyExact (correctCount wrongCount : Z) : Z :=
  let denominator := correctCount + wrongCount in
  if 0 <? denominator then
    (200 * correctCount + denominator) / (2 * denominator)
  else 0.

(** The points of a correct answer in exact arithmetic:
    [floor ((10 + max 0 t) * (1 + floor (s/3) / 10) + 1/2)]. *)
Definition pointsExact (streak timeLeft : Z) : Z :=
  ((10 + Z.max 0 timeLeft) * (10 + streak / 3) * 2 + 10) / 20.

(** *** Sample data *)

Definition q1 : Question :=
  (mkQuestion "2 + 2 = ?" "Maths" "4" ["3"; "5"; "22"] ["3"; "4"; "5"; "22"]
     undefined)%string.

Definition q2 : Question :=
  (mkQuestion "Capital of France?" "Geography" "Paris"
     ["Rome"; "Oslo"; "Bern"] ["Paris"; "Rome"; "Oslo"; "Bern"]
     undefined)%string.

(** A question as the Open Trivia Database delivers it, its apostrophe
    written as a character reference. *)
Definition q3 : Question :=
  (mkQuestion "Which of these is a song by Fleetwood Mac?"
     "Entertainment: Music" "Don&#039;t Stop"
     ["Roxanne"; "Imagine"; "Hey Jude"]
     ["Don&#039;t Stop"; "Roxanne"; "Imagine"; "Hey Jude"]
     undefined)%string.

(** *** Auxiliary notions of the proofs *)

(** The state without the property [stateReset] creates. *)
Definition withoutCQI (s : State) : State := set_currentQuestionIndex None s.

(** The state between two questions of a session on [qs] in which [k]
    questions were answered, each once, and left with the Next button. *)
Definition answered (qs : list Question) (k : nat) (s : State) : Prop :=
  currIndex s = Z.of_nat k /\
  correctCount s + wrongCount s = Z.of_nat k /\
  nextBtn_disabled s = true /\
  unlocks s = [] /\
  map answers (questions s) = map answers qs /\
  ((k < List.length qs)%nat ->
     exists q, current s = Some q /\ cards s = map (optionCard q) (answers q)) /\
  (k = List.length qs ->
     exists r, result s = Some r /\
       correct_count r + wrong_count r = Z.of_nat k).

(** What the count of the answers depends on. *)
Definition board (s : State)
  : nat * Z * bool * list nat * nat * Z * list (option (string * string)) *
    option Summary :=
  (List.length (questions s), currIndex s, nextBtn_disabled s, unlocks s,
   cardsGen s, correctCount s + wrongCount s, map onclick (cards s),
   result s).

(** The four stages of a session on [n] questions: a question is
    presented; its answer is recorded and the 800 ms callback pending; the
    callback has run and the Next button is enabled; the session is
    complete. *)
Definition presented (n : nat) (s : State) : Prop :=
  currIndex s < Z.of_nat n /\ nextBtn_disabled s = true /\ unlocks s = [] /\
  correctCount s + wrongCount s = currIndex s /\
  Forall (fun h => h <> None) (map onclick (cards s)).

Definition recorded (n : nat) (s : State) : Prop :=
  currIndex s < Z.of_nat n /\ nextBtn_disabled s = true /\
  unlocks s = [cardsGen s] /\
  correctCount s + wrongCount s = currIndex s + 1.

Definition unlocked (n : nat) (s : State) : Prop :=
  currIndex s < Z.of_nat n /\ nextBtn_disabled s = false /\ unlocks s = [] /\
  correctCount s + wrongCount s = currIndex s + 1 /\
  Forall (fun h => h = None) (map onclick (cards s)).

Definition complete (n : nat) (s : State) : Prop :=
  currIndex s = Z.of_nat n /\ nextBtn_disabled s = true /\ unlocks s = [] /\
  correctCount s + wrongCount s = Z.of_nat n /\
  Forall (fun h => h = None) (map onclick (cards s)) /\
  exists r, result s = Some r /\ correct_count r + wrong_count r = Z.of_nat n.

Definition counting (n : nat) (s : State) : Prop :=
  List.length (questions s) = n /\ 0 <= currIndex s /\
  (presented n s \/ recorded n s \/ unlocked n s \/ complete n s).

(** The freeze lifeline is spent and the clock runs. *)
Definition thawed (s : State) : Prop :=
  freeze (lifelines s) = false /\ isFrozen s = false.

(** While the 50/50 lifeline is available, the page shows the answers of
    the current question, none hidden. *)
Definition untouched (s : State) : Prop :=
  fifty (lifelines s) = true -> forall q, current s = Some q -> shows s q.

(** What [untouched] depends on. *)
Definition page (s : State) : bool * list Question * Z * list Card :=
  (fifty (lifelines s), questions s, currIndex s, cards s).

(** What the script knows about its countdowns. *)
Definition timers (s : State) : option nat * list nat * nat :=
  (timer s, intervals s, nextId s).

(** The events that leave the difference between [xp] and [score] alone. *)
Definition scores (e : Event) : bool :=
  match e with
  | Start _ _ | Skip | Home => false
  | _ => true
  end.

(** The integers [0 .. n-1]. *)
Definition upto (n : nat) : list Z := map Z.of_nat (seq 0 n).

(** * More of the script

    The review screen, the supply of questions with [startNextSet], and
    the saving and loading of progress: the functions of [script.js] around
    the session.  The Firestore collections and [localStorage] are
    explicit arguments and results. *)

(** ** The review screen *)

(** [ans === q.userSelected]: never true of [undefined] or [null]. *)
Definition picked (q : Question) (ans : string) : bool :=
  match userSelected q with
  | chosen a => (ans =? a)%string
  | _ => false
  end.

(** The [className] [showReview] gives the option [ans] of [q]. *)
Definition reviewClass (q : Question) (ans : string) : string :=
  let className := "review-opt"%string in
  if (ans =? correct_answer q)%string then
    let className := (className ++ " r-correct")%string in
    if picked q ans then (className ++ " r-picked-correct")%string
    else className
  else if picked q ans then (className ++ " r-wrong")%string
  else className.

(** A [.review-item]: the number and text of the question, and its
    options with their classes. *)
Record ReviewItem : Set := mkReviewItem {
  number : nat;
  heading : string;
  options : list (string * string)
}.

Definition reviewItem (i : nat) (q : Question) : ReviewItem :=
  mkReviewItem (i + 1) (question q)
    (map (fun ans => (reviewClass q ans, ans)) (answers q)).

(** [STATE.questions.forEach((q, i) => ...)] from index [i] on. *)
Fixpoint reviewItems (i : nat) (qs : list Question) : list ReviewItem :=
  match qs with
  | [] => []
  | q :: rest => reviewItem i q :: reviewItems (S i) rest
  end.

(** [showReview]: the content of the review list. *)
Definition showReview (s : State) : list ReviewItem :=
  reviewItems 0 (questions s).

(** The classes of a question whose answer [a] was chosen, and of one that
    was not answered. *)
Definition classAfter (q : Question) (a ans : string) : string :=
  if (ans =? a)%string then
    if (a =? correct_answer q)%string
    then "review-opt r-correct r-picked-correct"%string
    else "review-opt r-wrong"%string
  else if (ans =? correct_answer q)%string then "review-opt r-correct"%string
  else "review-opt"%string.

Definition classUnanswered (q : Question) (ans : string) : string :=
  if (ans =? correct_answer q)%string then "review-opt r-correct"%string
  else "review-opt"%string.

(** ** The question supply *)

(** A document of the Firestore collection [questions], with the fields
    the script reads; [last_used] is [null] or a timestamp, here in
    milliseconds. *)
Module Doc.

Record t : Set := make {
  id : string;
  question : string;
  category : string;
  correct_answer : string;
  incorrect_answers : list string;
  last_used : option Z
}.

End Doc.

(** What [fetchQuestions] ends with: [STATE.questions] assigned, or an
    [Error] thrown. *)
Inductive Fetched : Set :=
| Delivered (qs : list Question)
| Failed (message : string).

(** [!data.last_used || data.last_used.toDate() < fortyEightHoursAgo]. *)
Definition fresh (now : Z) (d : Doc.t) : bool :=
  match Doc.last_used d with
  | None => true
  | Some t => t <? now - 48 * 60 * 60 * 1000
  end.

(** [a.slice(0, e)]: a negative [e] counts from the end. *)
Definition slice {A : Type} (a : list A) (e : Z) : list A :=
  let len := Z.of_nat (List.length a) in
  let final := if e <? 0 then Z.max (len + e) 0 else Z.min e len in
  firstn (Z.to_nat final) a.

(** [{ ...q, answers: [...q.incorrect_answers, q.correct_answer].sort(...) }]
    for the [i]-th selected document. *)
Definition gameFormat (shuffleAnswers : nat -> list string -> list string)
  (i : nat) (d : Doc.t) : Question :=
  mkQuestion (Doc.question d) (Doc.category d) (Doc.correct_answer d)
    (Doc.incorrect_answers d)
    (shuffleAnswers i (Doc.incorrect_answers d ++ [Doc.correct_answer d]))
    undefined.

Fixpoint toGame (shuffleAnswers : nat -> list string -> list string)
  (i : nat) (docs : list Doc.t) : list Question :=
  match docs with
  | [] => []
  | d :: rest =>
      gameFormat shuffleAnswers i d :: toGame shuffleAnswers (S i) rest
  end.

(** [fetchQuestions].  [snapshot], [retrySnapshot] and [finalSnap] are
    what the three [getDocs] calls return when they are reached, [now] is
    [Date.now()], [amount] is [STATE.config.amount], and the two functions
    are the outcomes of the two [sort(() => Math.random() - 0.5)]: of the
    documents, and of the answers of the i-th selected document. *)
Definition fetchQuestions (snapshot retrySnapshot finalSnap : list Doc.t)
  (now amount : Z) (shuffleDocs : list Doc.t -> list Doc.t)
  (shuffleAnswers : nat -> list string -> list string) : Fetched :=
  let first :=
    match snapshot with
    | [] =>
        match retrySnapshot with
        | [] => None
        | _ :: _ => Some retrySnapshot
        end
    | _ :: _ => Some (filter (fresh now) snapshot)
    end in
  match first with
  | None => Failed "API Limit Reached or Network Error."
  | Some allDocs =>
      let allDocs :=
        if Z.of_nat (List.length allDocs) <? amount then
          let allDocs :=
            match allDocs, snapshot with
            | [], _ :: _ => allDocs ++ snapshot
            | _, _ => allDocs
            end in
          match allDocs with
          | [] => allDocs ++ finalSnap
          | _ :: _ => allDocs
          end
        else allDocs in
      let allDocs :=
        if Z.of_nat (List.length allDocs) <? amount then
          match allDocs, snapshot with
          | [], _ :: _ => allDocs ++ snapshot
          | _, _ => allDocs
          end
        else allDocs in
      let allDocs := shuffleDocs allDocs in
      let selectedDocs := slice allDocs amount in
      match selectedDocs with
      | [] => Failed "No questions available."
      | _ :: _ => Delivered (toGame shuffleAnswers 0 selectedDocs)
      end
  end.

(** The question [q] was made from the document [d]. *)
Definition fromDoc (d : Doc.t) (q : Question) : Prop :=
  question q = Doc.question d /\
  category q = Doc.category d /\
  correct_answer q = Doc.correct_answer d /\
  incorrect_answers q = Doc.incorrect_answers d /\
  userSelected q = undefined.

(** Every question of [qs] was made from a document of [pool]. *)
Definition drawnFrom (pool : list Doc.t) (qs : list Question) : Prop :=
  Forall (fun q => exists d, In d pool /\ fromDoc d q) qs.

(** Whatever the random comparator does, sorting rearranges. *)
Definition rearranges {A : Type} (f : list A -> list A) : Prop :=
  forall l, Permutation (f l) l.

(** [startNextSet], with what its [fetchQuestions] ended with.  The reset
    comes before the fetch; an [Error], also one thrown while the first
    question is rendered, is caught and leads home. *)
Definition startNextSet (fetched : Fetched) (s : State) : Completion :=
  let s := set_currIndex 0 s in
  let s := set_score 0 s in
  let s := set_streak 0 s in
  let s := set_correctCount 0 s in
  let s := set_wrongCount 0 s in
  let s := set_lifelines (mkLifelines true true true) s in
  let s := set_isFrozen false s in
  match fetched with
  | Delivered qs =>
      match renderQuestion (set_questions qs s) with
      | Normal t => Normal t
      | Throw t => Normal (goHome t)
      end
  | Failed _ => Normal (goHome s)
  end.

(** [Math.floor(xp / 100) + 1], the level [addXP] derives from the XP. *)
Definition levelOf (xp : Z) : Z :=
  JS.Math_floor (JS.div (JS.of_Z xp) (JS.of_Z 100)) + 1.

(** ** Persistence

    [x || d] on a number that may be missing: 0 and [undefined] give [d]. *)
Definition orElse (x : option Z) (d : Z) : Z :=
  match x with
  | Some 0 | None => d
  | Some v => v
  end.

(** A document of the collection [users], with the fields the script reads
    back ([name], [verified], [uid] and the timestamps are written only). *)
Record UserDoc : Set := mkUserDoc {
  doc_xp : option Z;
  doc_level : option Z;
  doc_score : option Z;
  doc_totalGames : option Z
}.

(** The collection [users], by document id. *)
Definition Users : Set := string -> option UserDoc.

(** What is kept outside the page: the entry [quiz_userdata] of
    [localStorage] (the pair of [xp] and [level]) and the collection. *)
Record Storage : Set := mkStorage {
  quiz_userdata : option (Z * Z);
  users : Users
}.

Definition setDoc (id : string) (d : UserDoc) (u : Users) : Users :=
  fun id' => if (id' =? id)%string then Some d else u id'.

(** [setDoc(ref, { xp, level, ... }, { merge: true })]: the other fields
    of an existing document stay. *)
Definition mergeProgress (xp level : Z) (old : option UserDoc) : UserDoc :=
  match old with
  | Some d => mkUserDoc (Some xp) (Some level) (doc_score d) (doc_totalGames d)
  | None => mkUserDoc (Some xp) (Some level) None None
  end.

(** [saveUserData(firebaseUser)]: [user] is [firebaseUser || auth.currentUser],
    [online] tells whether the cloud write succeeds (its error is caught). *)
Definition saveUserData (user : option string) (online : bool) (s : State)
  (st : Storage) : Storage :=
  let st := mkStorage (Some (xp s, level s)) (users st) in
  match user with
  | Some uid =>
      if online then
        mkStorage (quiz_userdata st)
          (setDoc uid (mergeProgress (xp s) (level s) (users st uid)) (users st))
      else st
  | None => st
  end.

(** [loadUserData(uid)], with [auth.currentUser] for the [saveUserData()] of
    a first login; a failing [getDoc] is caught and nothing is loaded. *)
Definition loadUserData (uid auth : option string) (online : bool)
  (s : State) (st : Storage) : State * Storage :=
  match uid with
  | None | Some EmptyString =>
      match quiz_userdata st with
      | Some (x, l) =>
          (set_level (orElse (Some l) 1) (set_xp (orElse (Some x) 0) s), st)
      | None => (s, st)
      end
  | Some uid =>
      if online then
        match users st uid with
        | Some data =>
            let s := set_xp (orElse (doc_xp data) 0) s in
            (set_level
               (orElse (doc_level data) (levelOf (orElse (doc_xp data) 0))) s,
             st)
        | None => (s, saveUserData auth online s st)
        end
      else (s, st)
  end.

(** [syncCloudData(user)]; when [getDoc] fails nothing happens. *)
Definition syncCloudData (uid : string) (online : bool) (s : State)
  (st : Storage) : State * Storage :=
  if online then
    match users st uid with
    | Some data =>
        let s := set_xp (orElse (doc_xp data) (xp s)) s in
        (set_level (orElse (doc_level data) (level s)) s, st)
    | None => (s, saveUserData (Some uid) online s st)
    end
  else (s, st).

(** The document [saveHighScore] writes to:
    [auth.currentUser ? auth.currentUser.uid : `guest_${STATE.user}`]. *)
Definition userId (auth : option string) (user : string) : string :=
  match auth with
  | Some uid => uid
  | None => ("guest_" ++ user)%string
  end.

(** [saveHighScore]: [user] is [STATE.user], [auth] the id of
    [auth.currentUser]; when a Firestore call fails nothing is written. *)
Definition saveHighScore (user auth : option string) (online : bool)
  (s : State) (u : Users) : Users :=
  match user with
  | None | Some EmptyString => u
  | Some name =>
      if online then
        let userId := userId auth name in
        let totalScore :=
          match u userId with
          | Some existingData => orElse (doc_score existingData) 0 + score s
          | None => score s
          end in
        let totalGames :=
          match u userId with
          | Some existingData => orElse (doc_totalGames existingData) 0 + 1
          | None => 1
          end in
        setDoc userId
          (mkUserDoc (Some (orElse (Some (xp s)) 0))
             (Some (orElse (Some (level s)) 1))
             (Some totalScore) (Some totalGames)) u
      else u
  end.

(** The writes to the collection [users], each run to its end before the
    next one starts. *)
Inductive Save : Type :=
| HighScore (online : bool) (s : State)   (* [saveHighScore()] in [endGame] *)
| Progress (online : bool) (s : State).   (* [saveUserData()] in [addXP] *)

Definition save (user auth : option string) (e : Save) (u : Users) : Users :=
  match e with
  | HighScore online s => saveHighScore user auth online s u
  | Progress online s => users (saveUserData auth online s (mkStorage None u))
  end.

Definition saves (user auth : option string) (es : list Save) (u : Users)
  : Users :=
  fold_left (fun u e => save user auth e u) es u.

(** The total score and the number of games a document stands for. *)
Definition totalScore (d : option UserDoc) : Z :=
  match d with
  | Some d => orElse (doc_score d) 0
  | None => 0
  end.

Definition totalGames (d : option UserDoc) : Z :=
  match d with
  | Some d => orElse (doc_totalGames d) 0
  | None => 0
  end.

(** The score and the count of the high-score writes that went through. *)
Definition saved (e : Save) : Z * Z :=
  match e with
  | HighScore true s => (score s, 1)
  | _ => (0, 0)
  end.

(** ** Further notions of the statements *)

(** [n] ticks of the interval [id]. *)
Definition ticks (id n : nat) : list Event := repeat (Tick id) n.

(** The state without its clock. *)
Definition withoutTime (s : State) : State := set_timeLeft 0 s.

(** At most one countdown is live, and it is the one [STATE.timer]
    names. *)
Definition single_countdown (s : State) : Prop :=
  (intervals s = [] \/ exists id, intervals s = [id] /\ timer s = Some id) /\
  (forall id, timer s = Some id -> (id < nextId s)%nat).

(** The streak counts correct answers of the session. *)
Definition tallied (s : State) : Prop :=
  0 <= streak s <= correctCount s /\ 0 <= wrongCount s.

(** The events whose handlers read no question. *)
Definition reads_no_question (e : Event) : bool :=
  match e with
  | Click _ | Tick _ | FiftyFifty => false
  | _ => true
  end.

(** The documents [fetchQuestions] draws from when at least one question
    is asked for: after a first-time seeding the new documents, else the
    fresh ones, or all of them when none is fresh. *)
Definition supply (now : Z) (snapshot retrySnapshot : list Doc.t)
  : list Doc.t :=
  match snapshot with
  | [] => retrySnapshot
  | _ :: _ =>
      match filter (fresh now) snapshot with
      | [] => snapshot
      | f => f
      end
  end.

(** The game statistics [startGame] and [startNextSet] begin with. *)
Definition newGame (s : State) : State :=
  let s := set_currIndex 0 s in
  let s := set_score 0 s in
  let s := set_streak 0 s in
  let s := set_correctCount 0 s in
  let s := set_wrongCount 0 s in
  let s := set_lifelines (mkLifelines true true true) s in
  set_isFrozen false s.

(** The message by the exact share of correct answers, rounded half up:
    the thresholds 80, 60 and 40 are reached from 79.5, 59.5 and 39.5
    percent on. *)
Definition grade (correctCount wrongCount : Z) : Message :=
  let total := correctCount + wrongCount in
  if 159 * total <=? 200 * correctCount then QuizMaster
  else if 119 * total <=? 200 * correctCount then GoodJob
  else if 79 * total <=? 200 * correctCount then KeepPracticing
  else TryAgain.

Definition message_eqb (a b : Message) : bool :=
  match a, b with
  | QuizMaster, QuizMaster | GoodJob, GoodJob
  | KeepPracticing, KeepPracticing | TryAgain, TryAgain => true
  | _, _ => false
  end.

(** Two documents of the collection, the second one used a minute before
    [now0], and a session on their questions. *)
Definition doc1 : Doc.t :=
  (Doc.make "a1" "2 + 2 = ?" "Maths" "4" ["3"; "5"; "22"] None)%string.

Definition doc2 : Doc.t :=
  (Doc.make "b2" "Capital of France?" "Geography" "Paris"
     ["Rome"; "Oslo"; "Bern"] (Some 1700000000000))%string.

Definition now0 : Z := 1700000060000.

Definition asked : State := run [Start ""%string [q1; q2]] STATE.

(** ** Proof automation *)

Ltac splits := repeat match goal with |- _ /\ _ => split end.

(** Case analysis on the innermost scrutinee of the goal, repeated. *)
Ltac split_cases :=
  repeat match goal with
    | |- context [match ?x with _ => _ end] =>
        match x with
        | context [match _ with _ => _ end] => fail 1
        | _ => destruct x eqn:?; cbn
        end
    end.

Ltac unfold_handlers :=
  unfold startGame, handleAnswer, tick, handleTimeOut, use5050,
    useFreeze, useSkip, nextQuestion, renderQuestion, endGame, goHome,
    stateReset, unlock, unfreeze, startTimer, clearInterval, addXP,
    record_choice, current.

(** * Properties *)

(** ** Arrays and lists *)

Lemma index_Some_range : forall (A : Type) (a : list A) i x,
  JS.index a i = Some x -> 0 <= i < Z.of_nat (List.length a).
Proof.
  intros A a i x H. unfold JS.index in H.
  destruct (i <? 0) eqn:E; [discriminate|]. apply Z.ltb_ge in E.
  assert (Hn : nth_error a (Z.to_nat i) <> None) by congruence.
  apply nth_error_Some in Hn. lia.
Qed.

Lemma index_nth_error : forall (A : Type) (a : list A) i x,
  JS.index a i = Some x -> nth_error a (Z.to_nat i) = Some x.
Proof.
  intros A a i x H. unfold JS.index in H.
  destruct (i <? 0); [discriminate | exact H].
Qed.

Lemma index_of_nat : forall (A : Type) (a : list A) k,
  JS.index a (Z.of_nat k) = nth_error a k.
Proof.
  intros A a k. unfold JS.index.
  destruct (Z.of_nat k <? 0) eqn:E; [apply Z.ltb_lt in E; lia|].
  rewrite Nat2Z.id. reflexivity.
Qed.

Lemma In_upto : forall n z, 0 <= z < Z.of_nat n -> In z (upto n).
Proof.
  intros n z H. unfold upto. apply in_map_iff. exists (Z.to_nat z).
  split; [lia|]. apply in_seq. lia.
Qed.

Section ListFacts.

Context {A : Type}.

Lemma nth_error_assign_same : forall (a : list A) i v x,
  nth_error a i = Some x -> nth_error (JS.assign a i v) i = Some v.
Proof.
  induction a as [|y a IH]; intros [|i] v x H; cbn in *; try discriminate.
  - reflexivity.
  - eapply IH; eassumption.
Qed.

Lemma nth_error_assign_other : forall (a : list A) i j v,
  i <> j -> nth_error (JS.assign a i v) j = nth_error a j.
Proof.
  induction a as [|y a IH]; intros [|i] [|j] v H; cbn; try reflexivity.
  - contradiction.
  - apply IH. congruence.
Qed.

Lemma In_assign : forall (a : list A) i v x,
  In x (JS.assign a i v) -> x = v \/ In x a.
Proof.
  induction a as [|y a IH]; intros [|i] v x H; cbn in *; try tauto.
  - destruct H as [H | H]; auto.
  - destruct H as [H | H]; auto. apply IH in H. tauto.
Qed.

Lemma map_assign : forall (B : Type) (f : A -> B) (a : list A) i v x,
  nth_error a i = Some x -> f v = f x -> map f (JS.assign a i v) = map f a.
Proof.
  induction a as [|y a IH]; intros [|i] v x H E; cbn in *; try discriminate.
  - injection H as ->. rewrite E. reflexivity.
  - f_equal. eapply IH; eassumption.
Qed.

Lemma filter_assign_length : forall (p : A -> bool) (a : list A) i v x,
  nth_error a i = Some x -> p x = false -> p v = true ->
  List.length (filter p (JS.assign a i v)) = S (List.length (filter p a)).
Proof.
  induction a as [|y a IH]; intros [|i] v x H Hx Hv; cbn in *; try discriminate.
  - injection H as ->. rewrite Hx, Hv. reflexivity.
  - destruct (p y); cbn; erewrite IH by eassumption; reflexivity.
Qed.

Lemma filter_none : forall (p : A -> bool) (a : list A),
  Forall (fun x => p x = false) a -> filter p a = [].
Proof.
  induction 1 as [|x a Hx _ IH]; cbn; [reflexivity|]. rewrite Hx. exact IH.
Qed.

Lemma NoDup_map_filter : forall (B : Type) (f : A -> B) (p : A -> bool) a,
  NoDup (map f a) -> NoDup (map f (filter p a)).
Proof.
  induction a as [|x a IH]; cbn; intros H; [constructor|].
  inversion H as [|? ? Hn Hd]; subst.
  destruct (p x); cbn; [|auto].
  constructor; [|auto].
  intros Hin. apply Hn. apply in_map_iff in Hin. destruct Hin as (y & Hy & Hin).
  apply filter_In in Hin. apply in_map_iff. exists y. tauto.
Qed.

Lemma filter_length_Permutation : forall (p : A -> bool) a b,
  Permutation a b -> List.length (filter p a) = List.length (filter p b).
Proof.
  induction 1 as [|x a b _ IH|x y a|a b c _ IH1 _ IH2]; cbn.
  - reflexivity.
  - destruct (p x); cbn; congruence.
  - destruct (p x), (p y); reflexivity.
  - congruence.
Qed.

(** Filtering the positions of a list by the element found there keeps as
    many positions as filtering the list keeps elements. *)
Lemma filter_positions_length : forall (p : A -> bool) (a : list A) start,
  List.length
    (filter
       (fun i =>
          match nth_error a (i - start) with
          | Some x => p x
          | None => false
          end)
       (seq start (List.length a))) =
  List.length (filter p a).
Proof.
  induction a as [|x a IH]; intros start; cbn [List.length seq filter].
  - reflexivity.
  - rewrite Nat.sub_diag. cbn [nth_error].
    assert (E : filter
                  (fun i => match nth_error (x :: a) (i - start) with
                            | Some y => p y
                            | None => false
                            end) (seq (S start) (List.length a)) =
                filter
                  (fun i => match nth_error a (i - S start) with
                            | Some y => p y
                            | None => false
                            end) (seq (S start) (List.length a))).
    { apply filter_ext_in. intros i Hi. apply in_seq in Hi.
      replace (i - start)%nat with (S (i - S start)) by lia. reflexivity. }
    rewrite E. destruct (p x); cbn [List.length]; rewrite IH; reflexivity.
Qed.

End ListFacts.

Lemma run_app : forall es1 es2 s, run (es1 ++ es2) s = run es2 (run es1 s).
Proof. intros. unfold run. apply fold_left_app. Qed.

(** ** Countdowns *)

Lemma clearInterval_frame : forall h s,
  clearInterval h s = set_intervals (intervals (clearInterval h s)) s.
Proof. intros [id|] s; destruct s; reflexivity. Qed.

Lemma clearInterval_not_In : forall id s,
  ~ In id (intervals (clearInterval (Some id) s)).
Proof. intros id s. cbn. apply remove_In. Qed.

Lemma one_countdown_timers : forall s t,
  timers s = timers t -> one_countdown s -> one_countdown t.
Proof.
  intros s t H. unfold timers in H. injection H as H1 H2 H3.
  unfold one_countdown. rewrite H1, H2, H3. tauto.
Qed.

Lemma one_countdown_clearInterval : forall s,
  one_countdown s -> one_countdown (clearInterval (timer s) s).
Proof.
  intros s [H1 H2]. unfold clearInterval. destruct (timer s) as [id|] eqn:E.
  - split; cbn; rewrite E; [exact H1|].
    intros k Hk. apply in_remove in Hk. apply H2. tauto.
  - split; rewrite E; [exact H1 | exact H2].
Qed.

Lemma one_countdown_startTimer : forall s,
  one_countdown s -> one_countdown (startTimer s).
Proof.
  intros s [H1 H2]. unfold startTimer, clearInterval.
  destruct (timer s) as [old|] eqn:E; split; cbn.
  - intros id [= <-]. lia.
  - intros id [<- | Hin]; [reflexivity|].
    apply in_remove in Hin. destruct Hin as [Hin Hne].
    specialize (H2 id Hin). congruence.
  - intros id [= <-]. lia.
  - intros id [<- | Hin]; [reflexivity|].
    specialize (H2 id Hin). discriminate.
Qed.

(** An event leaves the timers alone, or cancels the current countdown, or
    replaces it by a new one. *)
Lemma step_timers : forall e s,
  timers (step e s) = timers s \/
  timers (step e s) = timers (clearInterval (timer s) s) \/
  timers (step e s) = timers (startTimer s).
Proof.
  intros e s. unfold step, timers.
  destruct e; cbn; unfold_handlers; cbn; split_cases; cbn; auto;
    try congruence.
  match goal with H : Some _ = Some _ |- _ => injection H as <- end.
  rewrite remove_remove_eq. auto.
Qed.

Lemma one_countdown_step : forall e s,
  one_countdown s -> one_countdown (step e s).
Proof.
  intros e s H. destruct (step_timers e s) as [E | [E | E]];
    apply (one_countdown_timers _ _ (eq_sym E)).
  - exact H.
  - apply one_countdown_clearInterval. exact H.
  - apply one_countdown_startTimer. exact H.
Qed.

Lemma one_countdown_run : forall es s,
  one_countdown s -> one_countdown (run es s).
Proof.
  induction es as [|e es IH]; intros s H; cbn; [exact H|].
  apply IH, one_countdown_step, H.
Qed.

Lemma one_countdown_STATE : one_countdown STATE.
Proof. split; cbn; [discriminate | contradiction]. Qed.

(** ** Moving to the next question *)

(** What [nextQuestion] leaves alone. *)
Lemma nextQuestion_frame : forall s,
  let s' := state_of (nextQuestion s) in
  score s' = score s /\ streak s' = streak s /\
  correctCount s' = correctCount s /\ wrongCount s' = wrongCount s /\
  xp s' = xp s /\ lifelines s' = lifelines s /\
  questions s' = questions s /\ currIndex s' = currIndex s + 1.
Proof.
  intros s. unfold nextQuestion, renderQuestion, endGame, startTimer, current; cbn.
  split_cases; cbn; repeat split; destruct (timer s); reflexivity.
Qed.

(** With a question left, [nextQuestion] renders it. *)
Lemma nextQuestion_renders : forall s q,
  JS.index (questions s) (currIndex s + 1) = Some q ->
  exists s', nextQuestion s = Normal s' /\
    current s' = Some q /\
    cards s' = map (optionCard q) (answers q) /\
    timeLeft s' = duration (difficulty s) /\
    isFrozen s' = false /\
    nextBtn_disabled s' = true /\
    result s' = result s /\
    unlocks s' = unlocks s.
Proof.
  intros s q Hq. pose proof (index_Some_range _ _ _ _ Hq) as [_ Hr].
  apply Z.ltb_lt in Hr.
  unfold nextQuestion, renderQuestion, current; cbn. rewrite Hr, Hq.
  eexists. split; [reflexivity|].
  unfold startTimer, clearInterval, current; cbn; destruct (timer s); cbn;
    repeat split; exact Hq.
Qed.

(** After the last question, [nextQuestion] ends the game. *)
Lemma nextQuestion_ends : forall s,
  Z.of_nat (List.length (questions s)) <= currIndex s + 1 ->
  nextQuestion s =
  Normal (endGame (set_nextBtn_disabled true (set_currIndex (currIndex s + 1) s))).
Proof.
  intros s H. apply Z.ltb_ge in H. unfold nextQuestion; cbn. rewrite H. reflexivity.
Qed.

(** The countdowns live after [nextQuestion]: the one it may have
    started, and countdowns that were live before. *)
Lemma nextQuestion_intervals : forall s id,
  In id (intervals (state_of (nextQuestion s))) ->
  id = nextId s \/ In id (intervals s).
Proof.
  intros s id.
  unfold nextQuestion, renderQuestion, endGame, startTimer, clearInterval,
    current; cbn.
  split_cases; cbn; auto.
  - intros [H | H]; [left; auto | right]. apply in_remove in H. tauto.
  - intros [H | H]; [left; auto | right; exact H].
Qed.

(** C5.  While the skip lifeline is available, [useSkip] adds exactly
    [POINTS_PER_Q] (10) to the score, leaves the streak and the two
    counters as they are, spends the lifeline, cancels the countdown of the
    current question (no countdown that was live is live afterwards) and
    advances: the index grows by one, and either the next question is
    rendered with a fresh clock, or, after the last question, the game
    ends. *)
Theorem skip_grants_base_points : forall s,
  skip (lifelines s) = true ->
  one_countdown s ->
  let s' := step Skip s in
  score s' = score s + CONSTANTS.POINTS_PER_Q /\
  streak s' = streak s /\
  correctCount s' = correctCount s /\
  wrongCount s' = wrongCount s /\
  lifelines s' = set_skip false (lifelines s) /\
  currIndex s' = currIndex s + 1 /\
  (forall id, In id (intervals s) -> ~ In id (intervals s')) /\
  (forall q, JS.index (questions s) (currIndex s + 1) = Some q ->
     current s' = Some q /\
     cards s' = map (optionCard q) (answers q) /\
     timeLeft s' = duration (difficulty s) /\
     isFrozen s' = false) /\
  (Z.of_nat (List.length (questions s)) <= currIndex s + 1 ->
     result s' <> None).
Proof.
  intros s Hs [Ht Hlive] s'.
  set (s1 := clearInterval (timer s)
               (set_score (score s + CONSTANTS.POINTS_PER_Q)
                  (set_lifelines (set_skip false (lifelines s)) s))).
  assert (Hs' : s' = state_of (nextQuestion s1)).
  { subst s' s1. unfold step, dispatch, useSkip. rewrite Hs. reflexivity. }
  assert (H1 : s1 = set_intervals (intervals s1)
                 (set_score (score s + CONSTANTS.POINTS_PER_Q)
                    (set_lifelines (set_skip false (lifelines s)) s)))
    by apply clearInterval_frame.
  destruct (nextQuestion_frame s1) as (F1 & F2 & F3 & F4 & _ & F6 & F7 & F8).
  rewrite <- Hs' in *. rewrite H1 in F1, F2, F3, F4, F6, F7, F8. cbn in *.
  splits; try assumption.
  - intros id Hold Hin. pose proof (Hlive id Hold) as Hid. rewrite Hs' in Hin.
    apply nextQuestion_intervals in Hin.
    assert (Hno : ~ In id (intervals s1)).
    { subst s1. cbn [timer set_score set_lifelines]. rewrite Hid. apply clearInterval_not_In. }
    destruct Hin as [Hin | Hin]; [|contradiction].
    specialize (Ht id Hid). rewrite H1 in Hin. cbn in Hin. lia.
  - intros q H.
    destruct (nextQuestion_renders s1 q) as (t & Ht1 & Ht2 & Ht3 & Ht4 & Ht5 & _).
    { rewrite H1. cbn. exact H. }
    rewrite Hs', Ht1. cbn. rewrite Ht4, H1. auto.
  - intros Hr. rewrite Hs', nextQuestion_ends by (rewrite H1; cbn; exact Hr).
    cbn. discriminate.
Qed.

Lemma skip_grants_base_points_witness :
  let s := run [Start ""%string [q1; q2]] STATE in
  let s' := step Skip s in
  skip (lifelines s) = true /\
  score s' = score s + 10 /\ streak s' = streak s /\
  skip (lifelines s') = false /\ currIndex s' = currIndex s + 1.
Proof.
  pose proof (skip_grants_base_points (run [Start ""%string [q1; q2]] STATE)
                eq_refl (one_countdown_run _ _ one_countdown_STATE)) as H.
  cbn zeta in H. destruct H as (H1 & H2 & _ & _ & H5 & H6 & _).
  cbn zeta. splits.
  - reflexivity.
  - exact H1.
  - exact H2.
  - rewrite H5. reflexivity.
  - exact H6.
Defined.

(** ** Scoring an answer *)




(** From a streak of 39 on they can differ: 25 * 2.3 is 57.5, but the
    double nearest to [1 + 13 * 0.1] lies below 2.3. *)
Lemma points_inexact : points 39 15 = 57 /\ pointsExact 39 15 = 58.
Proof. split; vm_compute; reflexivity. Qed.

(** Fifteen seconds left and no streak: 25 points; no time left and a
    streak of three: 11 points. *)
Lemma points_examples : points 0 15 = 25 /\ points 3 0 = 11.
Proof. split; vm_compute; reflexivity. Qed.



(** ** Timeout *)

(** C4.  Whatever the streak was, a timeout on the current question
    leaves the score (and the XP) as it is and sets the streak to 0; so
    does the tick of the countdown that takes the clock to 0. *)
Theorem timeout_zero_points_streak_reset : forall s q,
  current s = Some q ->
  (exists s', handleTimeOut s = Normal s' /\
     score s' = score s /\ streak s' = 0 /\ xp s' = xp s /\
     nextBtn_disabled s' = false) /\
  (forall id, In id (intervals s) -> isFrozen s = false -> timeLeft s <= 1 ->
     exists s', dispatch (Tick id) s = Normal s' /\
       score s' = score s /\ streak s' = 0 /\ xp s' = xp s).
Proof.
  intros s q Hq. split.
  - unfold handleTimeOut. rewrite Hq. eexists. split; [reflexivity|]. cbn. auto.
  - intros id Hin Hfr Ht. cbn.
    assert (existsb (Nat.eqb id) (intervals s) = true) as ->.
    { apply existsb_exists. exists id. split; [exact Hin | apply Nat.eqb_refl]. }
    unfold tick. rewrite Hfr. cbn.
    destruct (timeLeft s - 1 <=? 0) eqn:E; [|apply Z.leb_gt in E; lia].
    unfold handleTimeOut, current, clearInterval.
    unfold current in Hq.
    destruct (timer s); cbn; rewrite Hq; eexists; (split; [reflexivity|]); cbn; auto.
Qed.

Lemma timeout_zero_points_streak_reset_witness :
  let s := run [Start ""%string [q1]] STATE in
  exists s', handleTimeOut s = Normal s' /\
    score s' = score s /\ streak s' = 0 /\ xp s' = xp s /\
    nextBtn_disabled s' = false.
Proof.
  exact (proj1 (timeout_zero_points_streak_reset
                  (run [Start ""%string [q1]] STATE) q1 eq_refl)).
Defined.

(** ** Submitting twice *)

(** Once the Next button is enabled, by the timeout or by the 800 ms
    callback of the first submission, a click on a card is ignored. *)
Lemma click_ignored_when_unlocked : forall i s,
  nextBtn_disabled s = false -> step (Click i) s = s.
Proof.
  intros i s H. unfold step, dispatch, handleAnswer. rewrite H. cbn.
  split_cases; reflexivity.
Qed.

Lemma click_ignored_after_timeout : forall i s q,
  current s = Some q ->
  step (Click i) (state_of (handleTimeOut s)) = state_of (handleTimeOut s).
Proof.
  intros i s q H. apply click_ignored_when_unlocked.
  unfold handleTimeOut. rewrite H. reflexivity.
Qed.

(** C3.  The guard of [handleAnswer] reads the Next button, which the
    first submission enables only 800 ms later: a second click on the
    correct card before that is scored again (25 more points, streak 2,
    two correct answers counted for one question). *)
Theorem second_submit_scores_again :
  let s1 := run [Start ""%string [q1; q2]; Click 1] STATE in
  let s2 := step (Click 1) s1 in
  (score s1, streak s1, correctCount s1, wrongCount s1) = (25, 1, 1, 0) /\
  (score s2, streak s2, correctCount s2, wrongCount s2) = (50, 2, 2, 0) /\
  currIndex s2 = currIndex s1.
Proof. vm_compute. repeat split; reflexivity. Qed.

(** ** The 50/50 lifeline *)

Lemma wrongCards_In : forall correct cs k,
  In k (wrongCards correct cs) ->
  exists c, nth_error cs k = Some c /\ HTML.read (innerHTML c) <> correct.
Proof.
  intros correct cs k H. apply filter_In in H. destruct H as [_ H].
  destruct (nth_error cs k) as [c|]; [|discriminate].
  exists c. split; [reflexivity|].
  apply negb_true_iff in H. apply String.eqb_neq. exact H.
Qed.

Lemma wrongCards_NoDup : forall correct cs, NoDup (wrongCards correct cs).
Proof. intros. apply NoDup_filter, seq_NoDup. Qed.

Lemma wrongCards_length : forall correct cs,
  List.length (wrongCards correct cs) =
  List.length
    (filter (fun a => negb (HTML.read a =? correct)%string)
       (map innerHTML cs)).
Proof.
  intros correct cs.
  transitivity
    (List.length
       (filter (fun c => negb (HTML.read (innerHTML c) =? correct)%string)
          cs)).
  - unfold wrongCards.
    rewrite <- (filter_positions_length
                  (fun c => negb (HTML.read (innerHTML c) =? correct)%string)
                  cs 0).
    f_equal. apply filter_ext. intros i. rewrite Nat.sub_0_r. reflexivity.
  - induction cs as [|c cs IH]; cbn -[HTML.read]; [reflexivity|].
    destruct (negb (HTML.read (innerHTML c) =? correct)%string);
      cbn -[HTML.read]; congruence.
Qed.

(** A plain text is read back as it was assigned. *)
Lemma read_plain : forall a, HTML.plain a = true -> HTML.read a = a.
Proof.
  unfold HTML.read. induction a as [|c a IH]; intros H; [reflexivity|].
  cbn [HTML.plain] in H. apply andb_true_iff in H. destruct H as [Hc Ha].
  unfold HTML.plainChar in Hc.
  apply andb_true_iff in Hc. destruct Hc as [Hc Hgt].
  apply andb_true_iff in Hc. destruct Hc as [Hc Hlt].
  apply andb_true_iff in Hc. destruct Hc as [_ Hamp].
  apply negb_true_iff in Hgt, Hlt, Hamp.
  cbn [HTML.decode]. rewrite Hamp.
  cbn [HTML.escape]. rewrite Hamp, Hlt, Hgt.
  rewrite IH by exact Ha. reflexivity.
Qed.

Lemma filter_read_plain : forall correct l,
  Forall (fun a => HTML.plain a = true) l ->
  filter (fun a => negb (HTML.read a =? correct)%string) l =
  filter (fun a => negb (a =? correct)%string) l.
Proof.
  intros correct l H. induction H as [|a l Ha _ IH]; [reflexivity|].
  cbn -[HTML.read]. rewrite (read_plain a Ha), IH. reflexivity.
Qed.

(** Among the shuffled answers of a question whose answers are all
    distinct, those that differ from the correct one are as many as the
    incorrect answers. *)
Lemma wrong_answers_count : forall q,
  shuffled q -> NoDup (answers q) ->
  List.length
    (filter (fun a => negb (a =? correct_answer q)%string) (answers q)) =
  List.length (incorrect_answers q).
Proof.
  intros q Hp Hd.
  rewrite (filter_length_Permutation _ _ _ Hp).
  pose proof (Permutation_NoDup Hp Hd) as Hd'.
  rewrite filter_app, length_app. cbn.
  rewrite String.eqb_refl. cbn. rewrite Nat.add_0_r.
  f_equal. apply forallb_filter_id. apply forallb_forall. intros a Ha.
  apply negb_true_iff, String.eqb_neq. intros ->.
  apply NoDup_remove_2 in Hd'. rewrite app_nil_r in Hd'. contradiction.
Qed.

(** Until the lifeline is used the cards on the page are those of the
    current question, all visible: [untouched] holds of the initial state
    and is kept by every event. *)
Lemma untouched_page : forall s t,
  page t = page s -> untouched s -> untouched t.
Proof.
  intros s t H. unfold page in H. injection H as H1 H2 H3 H4.
  unfold untouched, shows, current. rewrite H1, H2, H3, H4. tauto.
Qed.

Lemma shows_rendered : forall s q,
  cards s = map (optionCard q) (answers q) -> shows s q.
Proof.
  intros s q H. unfold shows. rewrite H. split.
  - rewrite map_map. cbn. apply map_id.
  - apply Forall_forall. intros c Hc. apply in_map_iff in Hc.
    destruct Hc as (a & <- & _). reflexivity.
Qed.

Lemma untouched_unclick : forall s,
  untouched s -> untouched (set_cards (map unclick (cards s)) s).
Proof.
  intros s H Hf q Hq. destruct (H Hf q Hq) as [H1 H2]. split; cbn.
  - rewrite map_map. exact H1.
  - apply Forall_forall. intros c Hc. apply in_map_iff in Hc.
    destruct Hc as (c' & <- & Hc'). cbn. rewrite Forall_forall in H2. auto.
Qed.

Lemma current_record_choice : forall v q s,
  current s = Some q ->
  current (record_choice v q s) = Some (set_userSelected v q).
Proof.
  intros v q s H. unfold current, record_choice in *. cbn.
  unfold JS.index in *. destruct (currIndex s <? 0); [discriminate|].
  eapply nth_error_assign_same. exact H.
Qed.

Lemma untouched_record_choice : forall v q s,
  current s = Some q -> untouched s -> untouched (record_choice v q s).
Proof.
  intros v q s Hq H Hf q' Hq'.
  rewrite (current_record_choice v q s Hq) in Hq'. injection Hq' as <-.
  exact (H Hf q Hq).
Qed.

Lemma untouched_nextQuestion : forall s, untouched (state_of (nextQuestion s)).
Proof.
  intros s Hf q Hq.
  destruct (JS.index (questions s) (currIndex s + 1)) as [qn|] eqn:E.
  - destruct (nextQuestion_renders s qn E) as (t & Et & T1 & T2 & _).
    rewrite Et in *. cbn in *. apply shows_rendered. congruence.
  - exfalso. destruct (nextQuestion_frame s) as (_ & _ & _ & _ & _ & _ & F7 & F8).
    cbn zeta in F7, F8. unfold current in Hq. rewrite F7, F8 in Hq. congruence.
Qed.

Lemma untouched_handleTimeOut : forall s,
  untouched s -> untouched (state_of (handleTimeOut s)).
Proof.
  intros s H. unfold handleTimeOut.
  destruct (current s) as [q|] eqn:E; [|exact H].
  cbn [state_of].
  apply (untouched_page
           (set_cards (map unclick (cards (record_choice null q s)))
              (record_choice null q s))); [reflexivity|].
  apply untouched_unclick, untouched_record_choice; assumption.
Qed.

Lemma untouched_handleAnswer : forall selected correct s,
  untouched s -> untouched (state_of (handleAnswer selected correct s)).
Proof.
  intros selected correct s H. unfold handleAnswer.
  destruct (nextBtn_disabled s); [|exact H]. cbn [negb].
  rewrite (clearInterval_frame (timer s) s).
  set (s1 := set_intervals _ s).
  assert (H1 : untouched s1) by (apply (untouched_page s); [reflexivity | exact H]).
  destruct (current s1) as [q|] eqn:E; [|exact H1].
  apply (untouched_page (record_choice (chosen selected) q s1)).
  - destruct (selected =? correct)%string; unfold addXP; cbn;
      split_cases; reflexivity.
  - apply untouched_record_choice; assumption.
Qed.

Lemma untouched_startGame : forall d q0 qs' s,
  untouched (state_of (startGame (set_questions (q0 :: qs') (set_difficulty d s)))).
Proof.
  intros d q0 qs' s.
  assert (E : exists t,
             startGame (set_questions (q0 :: qs') (set_difficulty d s)) = Normal t /\
             current t = Some q0 /\
             cards t = map (optionCard q0) (answers q0)).
  { unfold startGame, renderQuestion, current. cbn.
    eexists. split; [reflexivity|].
    unfold startTimer, clearInterval, current. cbn.
    destruct (timer s); split; reflexivity. }
  destruct E as (t & -> & Hc & Hcards). cbn [state_of].
  intros _ q Hq. apply shows_rendered. congruence.
Qed.

Lemma untouched_use5050 : forall s,
  untouched s -> untouched (state_of (use5050 s)).
Proof.
  intros s H. unfold use5050.
  destruct (fifty (lifelines s)) eqn:Ef; [|exact H]. cbn [negb].
  destruct (current s) as [q|].
  - cbn [state_of]. intros Hf. exfalso. revert Hf.
    generalize (hideWrong (wrongCards (correct_answer q) (cards s)) 1
                  (hideWrong (wrongCards (correct_answer q) (cards s)) 0 (cards s))).
    intros cs. cbn. discriminate.
  - destruct (cards s); cbn [state_of]; [|exact H].
    intros Hf. cbn in Hf. discriminate.
Qed.

Lemma untouched_goHome : forall s, untouched (goHome s).
Proof.
  intros s _ q Hq. apply index_Some_range in Hq. cbn in Hq. lia.
Qed.

Lemma untouched_step : forall e s, untouched s -> untouched (step e s).
Proof.
  intros e s H. unfold step. destruct e; cbn [dispatch].
  - destruct qs as [|q0 qs'].
    + apply (untouched_page s); [reflexivity | exact H].
    + apply untouched_startGame.
  - destruct (nth_error (cards s) i) as [c|]; [|exact H].
    destruct (onclick c) as [[ans correct]|]; [|exact H].
    apply untouched_handleAnswer. exact H.
  - destruct (existsb (Nat.eqb id) (intervals s)); [|exact H].
    unfold tick. destruct (isFrozen s); [exact H|].
    cbn [timeLeft set_timeLeft timer].
    destruct (timeLeft s - 1 <=? 0).
    + apply untouched_handleTimeOut.
      rewrite clearInterval_frame.
      apply (untouched_page s); [reflexivity | exact H].
    + apply (untouched_page s); [reflexivity | exact H].
  - destruct (unlocks s) as [|gen rest]; [exact H|].
    unfold unlock. cbn [state_of cardsGen set_unlocks].
    destruct (Nat.eqb gen (cardsGen s)).
    + apply (untouched_page (set_cards (map unclick (cards s)) s));
        [reflexivity | apply untouched_unclick; exact H].
    + apply (untouched_page s); [reflexivity | exact H].
  - destruct (unfreezes s); [exact H|].
    apply (untouched_page s); [reflexivity | exact H].
  - destruct (nextBtn_disabled s); [exact H | apply untouched_nextQuestion].
  - apply untouched_use5050. exact H.
  - unfold useFreeze. destruct (freeze (lifelines s)); [|exact H].
    apply (untouched_page s); [reflexivity | exact H].
  - unfold useSkip. destruct (skip (lifelines s)); [|exact H].
    apply untouched_nextQuestion.
  - apply untouched_goHome.
Qed.

Lemma untouched_run : forall es s, untouched s -> untouched (run es s).
Proof.
  induction es as [|e es IH]; intros s H; cbn; [exact H|].
  apply IH, untouched_step, H.
Qed.

Lemma untouched_STATE : untouched STATE.
Proof. intros _ q Hq. apply index_Some_range in Hq. cbn in Hq. lia. Qed.

(** When every answer is a plain text, which [innerHTML] gives back as it
    was assigned, the lifeline does what it is meant to do: on a question
    with at least two incorrect answers, all answers distinct, whose cards
    are on the page with none hidden, [use5050] hides exactly two answers,
    distinct and both incorrect, never the correct one, spends the lifeline
    and changes neither the score, nor the streak, nor the two counters. *)
Lemma fiftyFifty_plain_answers : forall s q,
  fifty (lifelines s) = true ->
  current s = Some q ->
  shows s q ->
  shuffled q ->
  NoDup (answers q) ->
  (2 <= List.length (incorrect_answers q))%nat ->
  Forall (fun a => HTML.plain a = true) (answers q) ->
  exists s', use5050 s = Normal s' /\
    List.length (hiddenAnswers s') = 2%nat /\
    NoDup (hiddenAnswers s') /\
    incl (hiddenAnswers s') (incorrect_answers q) /\
    ~ In (correct_answer q) (hiddenAnswers s') /\
    lifelines s' = set_fifty false (lifelines s) /\
    score s' = score s /\ streak s' = streak s /\
    correctCount s' = correctCount s /\ wrongCount s' = wrongCount s.
Proof.
  intros s q Hf Hq [Hshow Hvis] Hp Hd Hn Hpl.
  unfold use5050. rewrite Hf, Hq. cbn [negb].
  eexists. split; [reflexivity|]. cbn.
  set (w := wrongCards (correct_answer q) (cards s)).
  assert (Hlen : List.length w = List.length (incorrect_answers q)).
  { subst w. rewrite wrongCards_length, Hshow, filter_read_plain by exact Hpl.
    apply wrong_answers_count; assumption. }
  pose proof (wrongCards_NoDup (correct_answer q) (cards s)) as Hwd. fold w in Hwd.
  destruct w as [|k0 [|k1 w']] eqn:Ew; cbn in Hlen; try lia.
  assert (Hk0 : In k0 (wrongCards (correct_answer q) (cards s))) by (fold w; rewrite Ew; cbn; auto).
  assert (Hk1 : In k1 (wrongCards (correct_answer q) (cards s))) by (fold w; rewrite Ew; cbn; auto).
  apply wrongCards_In in Hk0. destruct Hk0 as (c0 & Hc0 & Hw0).
  apply wrongCards_In in Hk1. destruct Hk1 as (c1 & Hc1 & Hw1).
  assert (Hread : forall k c, nth_error (cards s) k = Some c ->
                    HTML.read (innerHTML c) = innerHTML c).
  { intros k c Hc. apply read_plain. rewrite Forall_forall in Hpl.
    apply Hpl. rewrite <- Hshow. apply in_map. eapply nth_error_In. exact Hc. }
  rewrite (Hread k0 c0 Hc0) in Hw0. rewrite (Hread k1 c1 Hc1) in Hw1.
  assert (Hne : k0 <> k1).
  { inversion Hwd as [|? ? Hnot _]; subst. intros ->. apply Hnot. cbn; auto. }
  unfold hideWrong, hiddenAnswers. cbn [nth_error]. rewrite Hc0.
  rewrite (nth_error_assign_other (cards s) k0 k1 (hide c0) Hne), Hc1.
  set (cs' := JS.assign (JS.assign (cards s) k0 (hide c0)) k1 (hide c1)).
  assert (Hv0 : hidden c0 = false).
  { rewrite Forall_forall in Hvis. apply Hvis. eapply nth_error_In; eassumption. }
  assert (Hv1 : hidden c1 = false).
  { rewrite Forall_forall in Hvis. apply Hvis. eapply nth_error_In; eassumption. }
  assert (Hc1' : nth_error (JS.assign (cards s) k0 (hide c0)) k1 = Some c1).
  { rewrite nth_error_assign_other by exact Hne. exact Hc1. }
  assert (Hmap : map innerHTML cs' = answers q).
  { subst cs'. rewrite (map_assign _ innerHTML _ k1 (hide c1) c1 Hc1' eq_refl).
    rewrite (map_assign _ innerHTML _ k0 (hide c0) c0 Hc0 eq_refl). exact Hshow. }
  assert (Hhid : forall c, In c (filter hidden cs') ->
                   innerHTML c <> correct_answer q /\ In (innerHTML c) (answers q)).
  { intros c Hc. apply filter_In in Hc. destruct Hc as [Hin Hh].
    subst cs'. apply In_assign in Hin. destruct Hin as [-> | Hin].
    - split; [exact Hw1|]. rewrite <- Hshow.
      change (innerHTML (hide c1)) with (innerHTML c1).
      apply in_map. eapply nth_error_In; eassumption.
    - apply In_assign in Hin. destruct Hin as [-> | Hin].
      + split; [exact Hw0|]. rewrite <- Hshow.
        change (innerHTML (hide c0)) with (innerHTML c0).
        apply in_map. eapply nth_error_In; eassumption.
      + rewrite Forall_forall in Hvis. rewrite (Hvis c Hin) in Hh. discriminate. }
  splits; try reflexivity.
  - rewrite length_map. subst cs'.
    rewrite (filter_assign_length hidden _ k1 (hide c1) c1 Hc1' Hv1 eq_refl).
    rewrite (filter_assign_length hidden _ k0 (hide c0) c0 Hc0 Hv0 eq_refl).
    rewrite (filter_none hidden (cards s) Hvis). reflexivity.
  - apply NoDup_map_filter. rewrite Hmap. exact Hd.
  - intros a Ha. apply in_map_iff in Ha. destruct Ha as (c & <- & Hc).
    destruct (Hhid c Hc) as [Hw Hin].
    apply (Permutation_in _ Hp) in Hin. apply in_app_or in Hin.
    destruct Hin as [Hin | [Hin | []]]; [exact Hin | congruence].
  - intros Ha. apply in_map_iff in Ha. destruct Ha as (c & He & Hc).
    destruct (Hhid c Hc) as [Hw _]. contradiction.
Qed.

(** C6.  The lifeline can hide the correct answer.  [use5050] takes for
    wrong every card whose [innerHTML] differs from [q.correct_answer], but
    [innerHTML] gives the answer back as the browser serialises it: for
    the correct answer ["Don&#039;t Stop"] it gives ["Don't Stop"], so the
    card of the correct answer counts as wrong as well.  Here the question
    has three incorrect answers, all four answers are distinct, their cards
    are on the page and the lifeline is available; the two cards hidden are
    the first two, and the first is the correct answer. *)
Theorem fiftyFifty_hides_correct_answer :
  let s := run [Start ""%string [q3]] STATE in
  let s' := step FiftyFifty s in
  (fifty (lifelines s) = true /\ current s = Some q3 /\ shows s q3 /\
   shuffled q3 /\ NoDup (answers q3) /\
   (2 <= List.length (incorrect_answers q3))%nat) /\
  HTML.read (correct_answer q3) = "Don't Stop"%string /\
  wrongCards (correct_answer q3) (cards s) = [0; 1; 2; 3]%nat /\
  hiddenAnswers s' = ["Don&#039;t Stop"; "Roxanne"]%string /\
  In (correct_answer q3) (hiddenAnswers s') /\
  fifty (lifelines s') = false.
Proof.
  cbv zeta. splits.
  - reflexivity.
  - reflexivity.
  - split; [reflexivity | repeat constructor].
  - unfold shuffled. cbn.
    apply (Permutation_cons_append ["Roxanne"; "Imagine"; "Hey Jude"]%string).
  - cbn. repeat constructor; cbn; intuition discriminate.
  - cbn. lia.
  - vm_compute. reflexivity.
  - vm_compute. reflexivity.
  - vm_compute. reflexivity.
  - vm_compute. left. reflexivity.
  - vm_compute. reflexivity.
Qed.

(** ** Counting the questions of a session *)

(** Recording the choice changes no answer list. *)
Lemma record_choice_answers : forall v q s,
  current s = Some q ->
  map answers (questions (record_choice v q s)) = map answers (questions s).
Proof.
  intros v q s H. unfold record_choice; cbn.
  apply map_assign with (x := q); [|reflexivity].
  apply index_nth_error. exact H.
Qed.

(** An accepted submission counts the question once, in one of the two
    counters, and schedules the unlocking of the Next button. *)
Lemma handleAnswer_counts : forall selected correct s q,
  nextBtn_disabled s = true ->
  current s = Some q ->
  exists s', handleAnswer selected correct s = Normal s' /\
    correctCount s' + wrongCount s' = correctCount s + wrongCount s + 1 /\
    currIndex s' = currIndex s /\
    map answers (questions s') = map answers (questions s) /\
    unlocks s' = unlocks s ++ [cardsGen s] /\
    cardsGen s' = cardsGen s /\
    cards s' = cards s /\
    nextBtn_disabled s' = true /\
    result s' = result s.
Proof.
  intros selected correct s q Hn Hq.
  unfold handleAnswer. rewrite Hn. cbn [negb].
  rewrite (clearInterval_frame (timer s) s).
  set (s1 := set_intervals _ s).
  assert (Hq1 : current s1 = Some q) by exact Hq.
  rewrite Hq1. eexists. split; [reflexivity|].
  pose proof (record_choice_answers (chosen selected) q s1 Hq1) as Ha.
  destruct (selected =? correct)%string; unfold addXP; cbn in *.
  - split_cases; cbn; splits; try reflexivity; try assumption; lia.
  - splits; try reflexivity; try assumption; lia.
Qed.

Section AnsweredSession.

Variable qs : list Question.

Lemma answered_start : forall d s0,
  idle s0 -> qs <> [] -> answered qs 0 (step (Start d qs) s0).
Proof.
  intros d s0 [Hn Hu] Hqs. unfold answered.
  destruct qs as [|q0 qs'] eqn:E; [contradiction|].
  unfold step, dispatch, startGame, renderQuestion, startTimer, clearInterval, current.
  cbn. destruct (timer s0); cbn.
  all: splits; auto; try discriminate; intros _; exists q0; split; reflexivity.
Qed.

Lemma answered_current : forall k s q q',
  answered qs k s -> current s = Some q -> nth_error qs k = Some q' ->
  answers q = answers q'.
Proof.
  intros k s q q' (Hi & _ & _ & _ & Hm & _) Hq Hq'.
  unfold current in Hq. rewrite Hi, index_of_nat in Hq.
  apply (map_nth_error answers) in Hq. apply (map_nth_error answers) in Hq'.
  rewrite Hm in Hq. congruence.
Qed.

(** Right after the answer to the next question is recorded, the two
    counters are one ahead of the index. *)
Lemma answered_click : forall k s q i,
  answered qs k s -> current s = Some q -> (i < List.length (answers q))%nat ->
  (k < List.length qs)%nat ->
  let s1 := step (Click i) s in
  correctCount s1 + wrongCount s1 = currIndex s1 + 1 /\
  currIndex s1 = Z.of_nat k /\
  map answers (questions s1) = map answers qs /\
  unlocks s1 = [cardsGen s1] /\
  nextBtn_disabled s1 = true.
Proof.
  intros k s q i Ha Hq Hi Hk.
  pose proof Ha as (Hci & Hsum & Hn & Hu & Hm & Hc & _).
  destruct (Hc Hk) as (q' & Hq' & Hcards).
  assert (q' = q) by congruence. subst q'.
  destruct (nth_error (answers q) i) as [a|] eqn:Ea;
    [|apply nth_error_None in Ea; lia].
  unfold step, dispatch. rewrite Hcards, nth_error_map, Ea. cbn.
  destruct (handleAnswer_counts a (correct_answer q) s q Hn Hq)
    as (s' & -> & H1 & H2 & H3 & H4 & H5 & H6 & H7 & H8).
  cbn. rewrite H1, H2, H3, H4, H5, Hu. splits; auto; lia.
Qed.

(** One question answered and left. *)
Lemma answered_round : forall k s q i,
  answered qs k s -> nth_error qs k = Some q -> (i < List.length (answers q))%nat ->
  answered qs (S k) (run (answerAndAdvance i) s).
Proof.
  intros k s q i Ha Hq Hi.
  assert (Hk : (k < List.length qs)%nat) by (apply nth_error_Some; congruence).
  pose proof Ha as (Hci & Hsum & Hn & Hu & Hm & Hc & _).
  destruct (Hc Hk) as (q' & Hq' & Hcards).
  assert (Hi' : (i < List.length (answers q'))%nat)
    by (rewrite (answered_current k s q' q Ha Hq' Hq); exact Hi).
  destruct (answered_click k s q' i Ha Hq' Hi' Hk) as (H1 & H2 & H3 & H4 & H5).
  unfold answerAndAdvance, run; cbn [fold_left].
  set (s1 := step (Click i) s) in *.
  assert (E2 : step Unlock s1 =
               set_nextBtn_disabled false
                 (set_cards (map unclick (cards s1)) (set_unlocks [] s1))).
  { unfold step, dispatch, unlock. rewrite H4. cbn. rewrite Nat.eqb_refl. reflexivity. }
  rewrite E2. set (s2 := set_nextBtn_disabled false _).
  assert (E3 : step Next s2 = state_of (nextQuestion s2)) by reflexivity.
  rewrite E3.
  destruct (nextQuestion_frame s2) as (_ & _ & F3 & F4 & _ & _ & F7 & F8).
  cbn in F3, F4, F7, F8.
  assert (Hlen : List.length (questions s1) = List.length qs).
  { rewrite <- (length_map answers (questions s1)), H3. apply length_map. }
  destruct (Nat.eq_dec (S k) (List.length qs)) as [Hlast | Hmore].
  - rewrite nextQuestion_ends in * by (cbn; lia).
    cbn in *. unfold answered; cbn. splits; auto; try lia.
    eexists. split; [reflexivity|]. cbn. lia.
  - destruct (nth_error (questions s1) (S k)) as [qn|] eqn:En;
      [|apply nth_error_None in En; lia].
    destruct (nextQuestion_renders s2 qn) as (t & Et & T1 & T2 & _ & _ & T5 & _ & T7).
    { cbn. rewrite H2. replace (Z.of_nat k + 1) with (Z.of_nat (S k)) by lia.
      rewrite index_of_nat. exact En. }
    rewrite Et in *. cbn in *. unfold answered. splits; auto; try lia.
    + rewrite F7. exact H3.
    + intros _. exists qn. split; assumption.
Qed.

Lemma answered_rounds : forall picks k s,
  answered qs k s -> validPicks (skipn k qs) picks ->
  answered qs (k + List.length picks) (run (flat_map answerAndAdvance picks) s).
Proof.
  induction picks as [|i picks IH]; intros k s Ha Hv.
  - cbn. rewrite Nat.add_0_r. exact Ha.
  - cbn [flat_map]. rewrite run_app.
    cbn [validPicks] in Hv.
    destruct (skipn k qs) as [|q rest] eqn:Es; [contradiction|].
    destruct Hv as [Hi Hv].
    assert (Hq : nth_error qs k = Some q).
    { rewrite <- (firstn_skipn k qs) at 1. rewrite Es.
      assert (Hl : List.length (firstn k qs) = k).
      { apply firstn_length_le.
        destruct (Nat.le_gt_cases k (List.length qs)) as [|Hgt]; [assumption|].
        rewrite skipn_all2 in Es by lia. discriminate. }
      rewrite nth_error_app2 by lia. rewrite Hl, Nat.sub_diag. reflexivity. }
    assert (Hr : skipn (S k) qs = rest).
    { replace (S k) with (1 + k)%nat by lia. rewrite <- skipn_skipn, Es. reflexivity. }
    cbn [List.length]. replace (k + S (List.length picks))%nat
      with (S k + List.length picks)%nat by lia.
    apply IH.
    + eapply answered_round; eassumption.
    + rewrite Hr. exact Hv.
Qed.

End AnsweredSession.

(** The plainest session: every question is answered by one click and
    left with the Next button after the 800 ms callback, and nothing else
    happens.  After [k] rounds the index and the sum of the counters are
    [k]. *)
Lemma answered_session_counts : forall s0 d qs picks,
  idle s0 -> qs <> [] -> validPicks qs picks ->
  let s := run (session d qs picks) s0 in
  currIndex s = Z.of_nat (List.length picks) /\
  correctCount s + wrongCount s = currIndex s /\
  (forall q i, current s = Some q -> (i < List.length (answers q))%nat ->
     let s1 := step (Click i) s in
     currIndex s1 = currIndex s /\
     correctCount s1 + wrongCount s1 = currIndex s1 + 1) /\
  (List.length picks = List.length qs ->
     correctCount s + wrongCount s = Z.of_nat (List.length qs) /\
     exists r, result s = Some r /\
       correct_count r + wrong_count r = Z.of_nat (List.length qs)).
Proof.
  intros s0 d qs picks Hidle Hqs Hv s.
  assert (Ha : answered qs (List.length picks) s).
  { subst s. unfold session.
    change (Start d qs :: flat_map answerAndAdvance picks)
      with ([Start d qs] ++ flat_map answerAndAdvance picks).
    rewrite run_app.
    apply (answered_rounds qs picks 0); [|exact Hv].
    apply answered_start; assumption. }
  clearbody s.
  pose proof Ha as (Hi & Hsum & Hn & Hu & Hm & Hc & Hr).
  splits.
  - exact Hi.
  - lia.
  - intros q i Hq Hlt.
    assert (Hk : (List.length picks < List.length qs)%nat).
    { apply index_Some_range in Hq.
      rewrite <- (length_map answers qs), <- Hm, length_map. lia. }
    destruct (answered_click qs _ s q i Ha Hq Hlt Hk) as (H1 & H2 & _).
    cbn. split; [lia | exact H1].
  - intros He. split; [lia|]. destruct (Hr He) as (r & H1 & H2).
    exists r. split; [exact H1 | rewrite <- He; exact H2].
Qed.

(** *** Sessions with ticks and lifelines *)

Lemma counting_board : forall n s t,
  board t = board s -> counting n s -> counting n t.
Proof.
  intros n s t E. unfold board in E.
  injection E as E1 E2 E3 E4 E5 E6 E7 E8.
  unfold counting, presented, recorded, unlocked, complete.
  rewrite E1, E2, E3, E4, E5, E6, E7, E8. tauto.
Qed.

Lemma current_in_range : forall s,
  0 <= currIndex s < Z.of_nat (List.length (questions s)) ->
  exists q, current s = Some q.
Proof.
  intros s H. unfold current, JS.index.
  destruct (currIndex s <? 0) eqn:E; [apply Z.ltb_lt in E; lia|].
  destruct (nth_error (questions s) (Z.to_nat (currIndex s))) eqn:En.
  - eexists. reflexivity.
  - apply nth_error_None in En. lia.
Qed.

Lemma current_at_end : forall s,
  currIndex s = Z.of_nat (List.length (questions s)) -> current s = None.
Proof.
  intros s H. unfold current. rewrite H, index_of_nat.
  apply nth_error_None. lia.
Qed.

Lemma onclick_hideWrong : forall w i cs,
  map onclick (hideWrong w i cs) = map onclick cs.
Proof.
  intros w i cs. unfold hideWrong.
  destruct (nth_error w i) as [k|]; [|reflexivity].
  destruct (nth_error cs k) as [c|] eqn:E; [|reflexivity].
  apply (map_assign _ onclick cs k (hide c) c E). reflexivity.
Qed.

Lemma board_use5050 : forall s, board (state_of (use5050 s)) = board s.
Proof.
  intros s. unfold use5050.
  destruct (negb (fifty (lifelines s))); [reflexivity|].
  destruct (current s) as [q|].
  - cbn [state_of]. unfold board. cbn. rewrite !onclick_hideWrong. reflexivity.
  - destruct (cards s); reflexivity.
Qed.

Lemma board_tick : forall id s,
  timesOut id s = false -> board (step (Tick id) s) = board s.
Proof.
  intros id s H. unfold step, dispatch. unfold timesOut in H.
  destruct (existsb (Nat.eqb id) (intervals s)); [|reflexivity].
  unfold tick. destruct (isFrozen s); [reflexivity|].
  cbn in H. cbn [timeLeft set_timeLeft]. rewrite H. reflexivity.
Qed.

Lemma board_quiet : forall e s,
  e = Unfreeze \/ e = Freeze \/ e = FiftyFifty ->
  board (step e s) = board s.
Proof.
  intros e s [-> | [-> | ->]]; unfold step, dispatch.
  - destruct (unfreezes s); reflexivity.
  - unfold useFreeze. destruct (negb (freeze (lifelines s))); reflexivity.
  - apply board_use5050.
Qed.

Lemma endGame_counts : forall s,
  exists r, result (endGame s) = Some r /\
    correct_count r + wrong_count r = correctCount s + wrongCount s.
Proof. intros s. eexists. split; reflexivity. Qed.

Lemma counting_click : forall n s i,
  counting n s -> unlocks s = [] -> counting n (step (Click i) s).
Proof.
  intros n s i (Hl & H0 & H) Hu. unfold step, dispatch.
  destruct (nth_error (cards s) i) as [c|] eqn:Ec;
    [|split; [|split]; assumption].
  destruct (onclick c) as [[ans correct]|] eqn:Eo;
    [|split; [|split]; assumption].
  destruct H as [HA | [HB | [HC | HD]]].
  - destruct HA as (Hi & Hn & _ & Hsum & Hc).
    destruct (current_in_range s) as [q Hq]; [lia|].
    destruct (handleAnswer_counts ans correct s q Hn Hq)
      as (s' & -> & H1 & H2 & H3 & H4 & H5 & H6 & H7 & H8).
    cbn [state_of]. split; [|split].
    + rewrite <- (length_map answers), H3, length_map. exact Hl.
    + lia.
    + right. left. unfold recorded. rewrite H1, H2, H4, H5, H7, Hu.
      splits; auto; lia.
  - destruct HB as (_ & _ & HB & _). rewrite Hu in HB. discriminate.
  - pose proof HC as (_ & Hn & _). unfold handleAnswer. rewrite Hn.
    cbn. split; [|split]; auto.
  - destruct HD as (_ & _ & _ & _ & Hc & _).
    rewrite Forall_forall in Hc.
    assert (onclick c = None).
    { apply Hc. apply in_map. eapply nth_error_In. exact Ec. }
    congruence.
Qed.

Lemma counting_unlock : forall n s,
  counting n s -> counting n (step Unlock s).
Proof.
  intros n s (Hl & H0 & H). unfold step, dispatch.
  destruct (unlocks s) as [|gen rest] eqn:Eu;
    [split; [|split]; assumption|].
  destruct H as [HA | [HB | [HC | HD]]].
  - destruct HA as (_ & _ & HA & _). rewrite Eu in HA. discriminate.
  - destruct HB as (Hi & Hn & HB & Hsum). rewrite Eu in HB.
    injection HB as -> ->.
    cbn [state_of]. unfold unlock. cbn [cardsGen set_unlocks].
    rewrite Nat.eqb_refl. split; [exact Hl|]. split; [exact H0|].
    right. right. left. unfold unlocked. cbn.
    splits; auto.
    rewrite map_map. apply Forall_forall. intros h Hh.
    apply in_map_iff in Hh. destruct Hh as (c & <- & _). reflexivity.
  - destruct HC as (_ & _ & HC & _). rewrite Eu in HC. discriminate.
  - destruct HD as (_ & _ & HD & _). rewrite Eu in HD. discriminate.
Qed.

Lemma counting_next : forall n s,
  counting n s -> counting n (step Next s).
Proof.
  intros n s (Hl & H0 & H). unfold step, dispatch.
  destruct (nextBtn_disabled s) eqn:En; [split; [|split]; assumption|].
  destruct H as [HA | [HB | [HC | HD]]].
  - destruct HA as (_ & HA & _). rewrite En in HA. discriminate.
  - destruct HB as (_ & HB & _). rewrite En in HB. discriminate.
  - destruct HC as (Hi & _ & Hu & Hsum & Hc).
    destruct (nextQuestion_frame s) as (_ & _ & F3 & F4 & _ & _ & F7 & F8).
    cbn zeta in F3, F4, F7, F8.
    destruct (Z.eq_dec (currIndex s + 1) (Z.of_nat n)) as [Hlast | Hmore].
    + rewrite nextQuestion_ends in * by lia. cbn [state_of] in *.
      split; [rewrite F7; exact Hl|]. split; [lia|].
      right. right. right. unfold complete.
      destruct (endGame_counts
                  (set_nextBtn_disabled true
                     (set_currIndex (currIndex s + 1) s)))
        as (r & Hr & Hrs).
      cbn in Hrs.
      splits; try (rewrite F8; lia); try reflexivity.
      * exact Hu.
      * rewrite F3, F4. lia.
      * exact Hc.
      * exists r. split; [exact Hr | lia].
    + destruct (current_in_range (set_currIndex (currIndex s + 1) s))
        as [q Hq]; [cbn; lia|].
      destruct (nextQuestion_renders s q Hq)
        as (t & Et & T1 & T2 & _ & _ & T5 & T6 & T7).
      rewrite Et in *. cbn [state_of] in *.
      split; [rewrite F7; exact Hl|]. split; [lia|].
      left. unfold presented. rewrite T2, T5, T7, F3, F4, F8.
      splits; auto; try lia.
      rewrite map_map. apply Forall_forall. intros h Hh.
      apply in_map_iff in Hh. destruct Hh as (a & <- & _). discriminate.
  - destruct HD as (_ & HD & _). rewrite En in HD. discriminate.
Qed.

Lemma counting_step : forall n e s,
  counting n s -> permitted e s = true -> counting n (step e s).
Proof.
  intros n e s H Hp. destruct e; cbn [permitted] in Hp; try discriminate.
  - apply counting_click; [exact H|]. destruct (unlocks s); [reflexivity | discriminate].
  - apply (counting_board n s); [|exact H]. apply board_tick.
    apply negb_true_iff. exact Hp.
  - apply counting_unlock. exact H.
  - apply (counting_board n s); [|exact H]. apply board_quiet. auto.
  - apply counting_next. exact H.
  - apply (counting_board n s); [|exact H]. apply board_quiet. auto.
  - apply (counting_board n s); [|exact H]. apply board_quiet. auto.
Qed.

Lemma counting_run : forall n es s,
  counting n s -> played es s = true -> counting n (run es s).
Proof.
  intros n es. induction es as [|e es IH]; intros s H Hp; [exact H|].
  cbn [played] in Hp. apply andb_true_iff in Hp. destruct Hp as [He Hes].
  cbn. apply IH; [|exact Hes]. apply counting_step; assumption.
Qed.

Lemma start_presents : forall s d q qs,
  exists t, dispatch (Start d (q :: qs)) s = Normal t /\
    current t = Some q /\ nextBtn_disabled t = nextBtn_disabled s /\
    currIndex t = 0 /\ questions t = q :: qs /\
    cards t = map (optionCard q) (answers q) /\
    unlocks t = unlocks s /\ correctCount t = 0 /\ wrongCount t = 0.
Proof.
  intros s d q qs. unfold dispatch, startGame, renderQuestion, current.
  cbn -[duration]. eexists. split; [reflexivity|].
  unfold startTimer, clearInterval. cbn -[duration].
  destruct (timer s); cbn -[duration]; splits; reflexivity.
Qed.

Lemma counting_start : forall d q qs s0,
  idle s0 ->
  counting (List.length (q :: qs)) (step (Start d (q :: qs)) s0).
Proof.
  intros d q qs s0 [Hn Hu].
  destruct (start_presents s0 d q qs) as (t & Et & Hq & Hb & Hi & Hqs & Hc & Hul & Hcc & Hwc).
  unfold step. rewrite Et. cbn [state_of].
  split; [rewrite Hqs; reflexivity|]. split; [lia|].
  left. unfold presented. rewrite Hi, Hb, Hul, Hcc, Hwc, Hc.
  splits; auto; try (cbn [List.length]; lia).
  rewrite map_map. apply Forall_forall. intros h Hh.
  apply in_map_iff in Hh. destruct Hh as (a & <- & _). discriminate.
Qed.

Lemma counting_outcome : forall n s,
  counting n s ->
  0 <= currIndex s <= Z.of_nat n /\
  (current s <> None -> nextBtn_disabled s = true -> unlocks s = [] ->
     correctCount s + wrongCount s = currIndex s /\
     forall i c, nth_error (cards s) i = Some c ->
       let s1 := step (Click i) s in
       currIndex s1 = currIndex s /\
       correctCount s1 + wrongCount s1 = currIndex s1 + 1) /\
  (current s <> None -> nextBtn_disabled s = false \/ unlocks s <> [] ->
     correctCount s + wrongCount s = currIndex s + 1) /\
  (current s = None ->
     currIndex s = Z.of_nat n /\
     correctCount s + wrongCount s = Z.of_nat n /\
     idle s /\
     exists r, result s = Some r /\
       correct_count r + wrong_count r = Z.of_nat n).
Proof.
  intros n s (Hl & H0 & H).
  assert (Hcur : currIndex s < Z.of_nat n -> current s <> None).
  { intros Hi. destruct (current_in_range s) as [x Hx]; [lia|]. congruence. }
  assert (Hend : currIndex s = Z.of_nat n -> current s = None).
  { intros Hi. apply current_at_end. lia. }
  destruct H as [HA | [HB | [HC | HD]]].
  - destruct HA as (Hi & Hn & Hu & Hsum & Hc). splits.
    + lia.
    + lia.
    + intros _ _ _. split; [exact Hsum|]. intros i c Ec.
      rewrite Forall_forall in Hc.
      destruct (onclick c) as [[ans correct]|] eqn:Eo.
      * destruct (current_in_range s) as [x Hx]; [lia|].
        destruct (handleAnswer_counts ans correct s x Hn Hx)
          as (s' & Es & H1 & H2 & _).
        cbv zeta. unfold step, dispatch. rewrite Ec, Eo, Es. cbn [state_of].
        split; [exact H2 | lia].
      * exfalso. apply (Hc None); [|reflexivity].
        rewrite <- Eo. apply in_map. eapply nth_error_In. exact Ec.
    + intros _ [Hd | Hne]; [congruence | contradiction].
    + intros He. exfalso. apply Hcur; assumption.
  - destruct HB as (Hi & Hn & Hu & Hsum). splits.
    + lia.
    + lia.
    + intros _ _ Hu'. rewrite Hu in Hu'. discriminate.
    + intros _ _. exact Hsum.
    + intros He. exfalso. apply Hcur; assumption.
  - destruct HC as (Hi & Hn & Hu & Hsum & Hc). splits.
    + lia.
    + lia.
    + intros _ Hn'. congruence.
    + intros _ _. exact Hsum.
    + intros He. exfalso. apply Hcur; assumption.
  - destruct HD as (Hi & Hn & Hu & Hsum & Hc & Hr). splits.
    + lia.
    + lia.
    + intros Hq. exfalso. apply Hq, Hend, Hi.
    + intros Hq. exfalso. apply Hq, Hend, Hi.
    + intros _. unfold idle. splits; assumption.
Qed.

(** C1, as amended.  A session is started on the idle page and played
    with permitted events only: every question is answered by one click
    and left with the Next button, with any ticks short of a timeout, the
    50/50 and the freeze lifeline and their callbacks in between.  Then
    while a question is presented, its answer not yet given,
    [correctCount + wrongCount] equals [currIndex], and the click on any
    card makes it [currIndex + 1], as the index only moves with Next; it is
    [currIndex + 1] from when the answer is recorded until Next is used;
    and when the session is complete it is the number of questions, also
    on the result screen, and the page is idle again for the next
    session. *)
Theorem counts_follow_answered_questions : forall s0 d q qs es,
  idle s0 ->
  played es (step (Start d (q :: qs)) s0) = true ->
  let s := run es (step (Start d (q :: qs)) s0) in
  let total := Z.of_nat (List.length (q :: qs)) in
  0 <= currIndex s <= total /\
  (current s <> None -> nextBtn_disabled s = true -> unlocks s = [] ->
     correctCount s + wrongCount s = currIndex s /\
     forall i c, nth_error (cards s) i = Some c ->
       let s1 := step (Click i) s in
       currIndex s1 = currIndex s /\
       correctCount s1 + wrongCount s1 = currIndex s1 + 1) /\
  (current s <> None -> nextBtn_disabled s = false \/ unlocks s <> [] ->
     correctCount s + wrongCount s = currIndex s + 1) /\
  (current s = None ->
     currIndex s = total /\
     correctCount s + wrongCount s = total /\
     idle s /\
     exists r, result s = Some r /\ correct_count r + wrong_count r = total).
Proof.
  intros s0 d q qs es Hidle Hp.
  apply (counting_outcome (List.length (q :: qs))
           (run es (step (Start d (q :: qs)) s0))).
  apply counting_run; [apply counting_start; exact Hidle | exact Hp].
Qed.

Lemma counts_follow_answered_questions_witness :
  let es := [Tick 1; FiftyFifty; Freeze; Tick 1; Click 1; Unfreeze; Unlock;
             Click 0; Next; Tick 2; Tick 2; Click 0; Unlock; Next]%nat in
  let s := run es (step (Start ""%string [q1; q2]) STATE) in
  currIndex s = 2 /\ correctCount s + wrongCount s = 2 /\
  exists r, result s = Some r /\ correct_count r + wrong_count r = 2.
Proof.
  intros es.
  destruct (counts_follow_answered_questions STATE ""%string q1 [q2] es)
    as (_ & _ & _ & H).
  - split; reflexivity.
  - vm_compute. reflexivity.
  - destruct H as (H1 & H2 & _ & H3); [vm_compute; reflexivity|].
    cbv zeta. splits; [exact H1 | exact H2 | exact H3].
Defined.

(** The equation of C1 as the specification has it fails: after an answer
    is recorded the sum is ahead of [currIndex]; a session whose only
    question timed out, or was skipped, completes with both counters at
    0, and one whose only question was clicked twice, with a sum of 2. *)
Lemma counts_differ_from_index :
  (let s := run [Start ""%string [q1; q2]; Click 1] STATE in
   userSelected (nth 0 (questions s) q2) = chosen "4" /\
   correctCount s + wrongCount s = 1 /\ currIndex s = 0 /\
   correctCount s + wrongCount s <> currIndex s) /\
  (let s := run (Start ""%string [q1] :: repeat (Tick 1) 15 ++ [Next]) STATE in
   userSelected (nth 0 (questions s) q2) = null /\
   result s <> None /\
   correctCount s + wrongCount s = 0 /\
   correctCount s + wrongCount s <> Z.of_nat (List.length (questions s))) /\
  (let s := run [Start ""%string [q1]; Skip] STATE in
   result s <> None /\
   correctCount s + wrongCount s = 0 /\
   correctCount s + wrongCount s <> Z.of_nat (List.length (questions s))) /\
  (let s := run [Start ""%string [q1]; Click 1; Click 1; Unlock; Next] STATE in
   result s <> None /\
   correctCount s + wrongCount s = 2 /\
   correctCount s + wrongCount s <> Z.of_nat (List.length (questions s))).
Proof.
  vm_compute. repeat split; discriminate.
Qed.

(** ** XP and score *)

(** Every event but a new start, the skip lifeline and the way home
    moves [xp] and [score] by the same amount. *)
Lemma xp_follows_score_step : forall e s,
  scores e = true -> xp (step e s) - score (step e s) = xp s - score s.
Proof.
  intros e s He. unfold step.
  destruct e; try discriminate; cbn; unfold_handlers; cbn; split_cases; cbn; lia.
Qed.

Lemma xp_follows_score : forall es s,
  forallb scores es = true -> xp (run es s) - score (run es s) = xp s - score s.
Proof.
  induction es as [|e es IH]; intros s H; cbn in *; [reflexivity|].
  apply andb_true_iff in H. destruct H as [He Hes].
  rewrite IH by exact Hes. apply xp_follows_score_step. exact He.
Qed.

(** C7.  [endGame] reports the score as the XP gained ([xpGained]), but
    the XP that was credited falls short of it once the skip lifeline is
    used: [useSkip] adds 10 to the score and no XP.  Here the first
    question is answered correctly (25 points, 25 XP) and the second one
    skipped: the score and [xpGained] are 35, the XP grew by 25. *)
Theorem skip_points_earn_no_xp :
  let s := run [Start ""%string [q1; q2]; Click 1; Unlock; Next; Skip] STATE in
  result s <> None /\
  score s = 35 /\ xpGained s = 35 /\ xp s - xp STATE = 25.
Proof. vm_compute. repeat split; discriminate. Qed.


(** ** Accuracy *)

Lemma accuracy_table :
  forallb
    (fun c =>
       forallb
         (fun w =>
            (40 <=? c + w) ||
            ((accuracy c w =? accuracyPercent c w) &&
             (accuracy c w =? accuracyExact c w)))
         (upto 40))
    (upto 40) = true.
Proof. vm_compute. reflexivity. Qed.

Lemma accuracy_below_40 : forall c w,
  0 <= c -> 0 <= w -> c + w < 40 ->
  accuracy c w = accuracyPercent c w /\ accuracy c w = accuracyExact c w.
Proof.
  intros c w Hc Hw H. pose proof accuracy_table as T.
  rewrite forallb_forall in T. specialize (T c (In_upto 40 c ltac:(lia))).
  rewrite forallb_forall in T. specialize (T w (In_upto 40 w ltac:(lia))).
  apply orb_true_iff in T. destruct T as [T | T]; [apply Z.leb_le in T; lia|].
  apply andb_true_iff in T. destruct T as [T1 T2].
  split; apply Z.eqb_eq; assumption.
Qed.

Lemma accuracy_nothing_answered : forall c w, c + w <= 0 -> accuracy c w = 0.
Proof.
  intros c w H. unfold accuracy.
  destruct (0 <? c + w) eqn:E; [apply Z.ltb_lt in E; lia | reflexivity].
Qed.

(** C9.  With nothing answered the accuracy is 0, without a division.
    But [endGame] divides first and multiplies by 100 afterwards, in double
    precision: for 23 correct and 17 wrong answers [(23 / 40) * 100] is
    57.49999999999999 and is rounded to 57, where [round(100 * 23 / 40)] is
    58, in double precision as in exact arithmetic. *)
Theorem accuracy_rounds_down_a_half :
  accuracy 23 17 = 57 /\
  accuracyPercent 23 17 = 58 /\
  accuracyExact 23 17 = 58 /\
  option_map accuracy_percent
    (result (endGame (set_wrongCount 17 (set_correctCount 23 STATE)))) = Some 57 /\
  accuracy 0 0 = 0.
Proof. vm_compute. repeat split; reflexivity. Qed.


(** ** The freeze lifeline and its late callback *)

Lemma freeze_spent_step : forall e s,
  inSession e = true -> freeze (lifelines s) = false ->
  freeze (lifelines (step e s)) = false.
Proof.
  intros e s He Hf. unfold step.
  destruct e; try discriminate; cbn; unfold_handlers; cbn;
    try rewrite Hf; cbn; split_cases; cbn; auto.
Qed.

Lemma freeze_spent_run : forall es s,
  forallb inSession es = true -> freeze (lifelines s) = false ->
  freeze (lifelines (run es s)) = false.
Proof.
  induction es as [|e es IH]; intros s Hes Hf; cbn in *; [exact Hf|].
  apply andb_true_iff in Hes. destruct Hes as [He Hes].
  apply IH; [exact Hes|]. apply freeze_spent_step; assumption.
Qed.

Lemma thawed_step : forall e s,
  inSession e = true -> thawed s -> thawed (step e s).
Proof.
  intros e s He [Hf Hz]. split; [apply freeze_spent_step; assumption|].
  unfold step.
  destruct e; try discriminate; cbn; unfold_handlers; cbn;
    try rewrite Hf; try rewrite Hz; cbn; split_cases; cbn; auto.
Qed.

(** No handler but the unfreeze callback looks at the pending unfreeze
    callbacks. *)
Lemma clock_step : forall e n s,
  isUnfreeze e = false ->
  clock (step e (set_unfreezes n s)) = clock (step e s).
Proof.
  intros e n s He. unfold step, clock.
  destruct e; try discriminate; cbn; unfold_handlers; cbn;
    split_cases; reflexivity.
Qed.

Lemma clock_step_eq : forall e s t,
  isUnfreeze e = false -> clock s = clock t ->
  clock (step e s) = clock (step e t).
Proof.
  intros e s t He H.
  rewrite <- (clock_step e 0 s He), <- (clock_step e 0 t He).
  unfold clock in H. rewrite H. reflexivity.
Qed.

(** With the clock running, the unfreeze callback changes nothing but the
    number of callbacks still pending. *)
Lemma clock_unfreeze : forall s,
  isFrozen s = false -> clock (step Unfreeze s) = clock s.
Proof.
  intros s Hz. unfold step, dispatch.
  destruct (unfreezes s) eqn:E; cbn; [reflexivity|].
  unfold unfreeze, clock. destruct s; cbn in *; subst; reflexivity.
Qed.

Lemma stale_unfreeze_run : forall es s t,
  forallb inSession es = true -> thawed s -> thawed t -> clock s = clock t ->
  thawed (run es s) /\
  clock (run es s) = clock (run (filter (fun e => negb (isUnfreeze e)) es) t).
Proof.
  induction es as [|e es IH]; intros s t Hes Hs Ht Hc; cbn [run fold_left filter].
  - split; assumption.
  - cbn in Hes. apply andb_true_iff in Hes. destruct Hes as [He Hes].
    destruct (isUnfreeze e) eqn:Eu; cbn [negb].
    + destruct e; try discriminate.
      apply IH; auto.
      * apply thawed_step; auto.
      * rewrite clock_unfreeze by apply Hs. exact Hc.
    + cbn [run fold_left]. apply IH; auto.
      * apply thawed_step; auto.
      * apply thawed_step; auto.
      * apply clock_step_eq; assumption.
Qed.

(** When [nextQuestion] leaves a current question, it has rendered it,
    and the clock runs. *)
Lemma nextQuestion_unfrozen : forall s,
  current (state_of (nextQuestion s)) <> None ->
  isFrozen (state_of (nextQuestion s)) = false.
Proof.
  intros s.
  unfold nextQuestion, renderQuestion, endGame, startTimer, clearInterval,
    current; cbn.
  destruct (currIndex s + 1 <? Z.of_nat (List.length (questions s))) eqn:E; cbn.
  - destruct (JS.index (questions s) (currIndex s + 1)) eqn:Eq; cbn.
    + destruct (timer s); reflexivity.
    + rewrite Eq. congruence.
  - destruct (JS.index (questions s) (currIndex s + 1)) eqn:Eq; [|congruence].
    apply index_Some_range in Eq. apply Z.ltb_ge in E. lia.
Qed.

(** A question that [Next] or [Skip] has just presented starts with the
    clock running. *)
Lemma advance_unfrozen : forall e s,
  e = Next \/ e = Skip ->
  currIndex (step e s) = currIndex s + 1 ->
  current (step e s) <> None ->
  isFrozen (step e s) = false.
Proof.
  intros e s [-> | ->]; unfold step; cbn.
  - destruct (nextBtn_disabled s); [cbn; lia|].
    intros _. apply nextQuestion_unfrozen.
  - unfold useSkip. destruct (skip (lifelines s)); cbn [negb]; [|cbn; lia].
    intros _. apply nextQuestion_unfrozen.
Qed.

(** Within the session the late callback is harmless.  The freeze
    lifeline is used, and later [Next] or [Skip] presents a new question
    while the 10 s callback may still be pending.  The new question starts
    with [isFrozen] false, and whatever happens in the rest of the session,
    [isFrozen] stays false and the state is, but for the number of pending
    callbacks, the one reached by the same events without the unfreeze
    callbacks: the lifeline is spent, so there is no freeze the callback
    could end. *)
Lemma stale_unfreeze_within_session : forall s es1 e es2,
  freeze (lifelines s) = true ->
  forallb inSession es1 = true ->
  e = Next \/ e = Skip ->
  forallb inSession es2 = true ->
  let frozen := step Freeze s in
  let before := run es1 frozen in
  let presented := step e before in
  currIndex presented = currIndex before + 1 ->
  current presented <> None ->
  isFrozen frozen = true /\
  isFrozen presented = false /\
  isFrozen (run es2 presented) = false /\
  clock (run es2 presented) =
  clock (run (filter (fun e => negb (isUnfreeze e)) es2) presented).
Proof.
  intros s es1 e es2 Hf Hes1 He Hes2 frozen before presented Hi Hq.
  assert (Hfz : isFrozen frozen = true /\ freeze (lifelines frozen) = false).
  { subst frozen. unfold step, dispatch, useFreeze. rewrite Hf. cbn. auto. }
  destruct Hfz as [Hfz Hspent].
  assert (Hth : thawed presented).
  { split.
    - subst presented. apply freeze_spent_step.
      + destruct He as [-> | ->]; reflexivity.
      + subst before. apply freeze_spent_run; assumption.
    - apply advance_unfrozen; assumption. }
  destruct (stale_unfreeze_run es2 presented presented Hes2 Hth Hth eq_refl)
    as [[_ Hz] Hc].
  splits; try assumption. apply Hth.
Qed.

(** C8.  The callback is never cancelled, and nothing ties it to the
    question it was scheduled for.  In the first session the freeze
    lifeline is used on the first question, which is answered and left: the
    second question starts unfrozen with the callback pending.  Within the
    10 s the player goes home and starts a new session, where [startGame]
    hands the lifeline out again, and freezes its first question.  The
    callback of the first session now ends this freeze: the clock of the
    unrelated question runs (13 s after two ticks) where without that
    callback it stands still (15 s), while the callback that belongs to the
    new freeze is still pending. *)
Theorem stale_unfreeze_ends_later_freeze :
  let advanced :=
    run [Start ""%string [q1; q2]; Freeze; Click 1; Unlock; Next] STATE in
  let later := run [Home; Start ""%string [q2]; Freeze] advanced in
  (current advanced = Some q2 /\ isFrozen advanced = false /\
   unfreezes advanced = 1%nat) /\
  (current later = Some q2 /\ isFrozen later = true /\
   timeLeft later = 15 /\ unfreezes later = 2%nat) /\
  (isFrozen (step Unfreeze later) = false /\
   unfreezes (step Unfreeze later) = 1%nat) /\
  (let t := run [Unfreeze; Tick 3; Tick 3] later in
   isFrozen t = false /\ timeLeft t = 13) /\
  (let t := run [Tick 3; Tick 3] later in
   isFrozen t = true /\ timeLeft t = 15).
Proof. vm_compute. repeat split; reflexivity. Qed.

(** ** Leaving the session *)

Lemma step_ignores_currentQuestionIndex : forall e v s,
  withoutCQI (step e (set_currentQuestionIndex v s)) = withoutCQI (step e s).
Proof.
  intros e v s. unfold step, withoutCQI.
  destruct e; cbn; unfold_handlers; cbn; split_cases; reflexivity.
Qed.

Lemma withoutCQI_step : forall e s t,
  withoutCQI s = withoutCQI t -> withoutCQI (step e s) = withoutCQI (step e t).
Proof.
  intros e s t H.
  rewrite <- (step_ignores_currentQuestionIndex e None s).
  rewrite <- (step_ignores_currentQuestionIndex e None t).
  unfold withoutCQI in H. rewrite H. reflexivity.
Qed.

Lemma run_ignores_currentQuestionIndex : forall es s t,
  withoutCQI s = withoutCQI t -> withoutCQI (run es s) = withoutCQI (run es t).
Proof.
  induction es as [|e es IH]; intros s t H; cbn.
  - exact H.
  - apply IH. apply withoutCQI_step. exact H.
Qed.

(** C10.  [goHome] (that is, [stateReset]) sets the score to 0 and empties
    the question list; [currIndex], the streak, the two counters, the
    lifelines and [isFrozen] keep their values.  The index it assigns is
    the property [currentQuestionIndex], which nothing reads: whatever
    value it holds, every run of events leaves the rest of the state the
    same. *)
Theorem goHome_resets_score_and_questions_only : forall s,
  step Home s = goHome s /\
  score (goHome s) = 0 /\
  questions (goHome s) = [] /\
  currentQuestionIndex (goHome s) = Some 0 /\
  currIndex (goHome s) = currIndex s /\
  streak (goHome s) = streak s /\
  correctCount (goHome s) = correctCount s /\
  wrongCount (goHome s) = wrongCount s /\
  lifelines (goHome s) = lifelines s /\
  isFrozen (goHome s) = isFrozen s /\
  forall es v t,
    withoutCQI (run es (set_currentQuestionIndex v t)) = withoutCQI (run es t).
Proof.
  intros s. splits; try reflexivity.
  intros es v t. apply run_ignores_currentQuestionIndex. reflexivity.
Qed.

(** * Properties of the rest of the script

    ** The countdown *)

Lemma set_timeLeft_same : forall s, set_timeLeft (timeLeft s) s = s.
Proof. intros s. destruct s; reflexivity. Qed.

Lemma tick_live : forall s id,
  In id (intervals s) -> dispatch (Tick id) s = tick s.
Proof.
  intros s id H. cbn.
  assert (existsb (Nat.eqb id) (intervals s) = true) as ->; [|reflexivity].
  apply existsb_exists. exists id. split; [exact H | apply Nat.eqb_refl].
Qed.

Lemma tick_dead : forall s id,
  ~ In id (intervals s) -> step (Tick id) s = s.
Proof.
  intros s id H. unfold step. cbn.
  destruct (existsb (Nat.eqb id) (intervals s)) eqn:E; [|reflexivity].
  apply existsb_exists in E. destruct E as (k & Hk & E).
  apply Nat.eqb_eq in E. subst k. contradiction.
Qed.

Lemma ticks_dead : forall n s id,
  ~ In id (intervals s) -> run (ticks id n) s = s.
Proof.
  induction n as [|n IH]; intros s id H; cbn; [reflexivity|].
  rewrite tick_dead by exact H. apply IH. exact H.
Qed.

Lemma ticks_above_zero : forall k s id,
  In id (intervals s) -> isFrozen s = false ->
  Z.of_nat k < timeLeft s ->
  run (ticks id k) s = set_timeLeft (timeLeft s - Z.of_nat k) s.
Proof.
  induction k as [|k IH]; intros s id Hin Hfr Hk.
  - cbn. rewrite Z.sub_0_r. symmetry. apply set_timeLeft_same.
  - cbn [ticks repeat run fold_left].
    assert (E : step (Tick id) s = set_timeLeft (timeLeft s - 1) s).
    { unfold step. rewrite tick_live by exact Hin. unfold tick. rewrite Hfr.
      cbn. destruct (timeLeft s - 1 <=? 0) eqn:El; [apply Z.leb_le in El; lia|].
      reflexivity. }
    rewrite E. change (fold_left (fun s e => step e s) (repeat (Tick id) k))
      with (run (ticks id k)).
    replace (timeLeft s - Z.of_nat (S k)) with (timeLeft s - 1 - Z.of_nat k)
      by lia.
    rewrite IH.
    + destruct s; reflexivity.
    + exact Hin.
    + exact Hfr.
    + cbn. lia.
Qed.

(** X1.  While more than [k] seconds are left, [k] ticks take [k] seconds off
    the clock and change nothing else. *)
Theorem countdown_runs_down : forall k s id,
  In id (intervals s) -> isFrozen s = false ->
  Z.of_nat k < timeLeft s ->
  run (ticks id k) s = set_timeLeft (timeLeft s - Z.of_nat k) s /\
  withoutTime (run (ticks id k) s) = withoutTime s.
Proof.
  intros k s id Hin Hfr Hk.
  rewrite ticks_above_zero by assumption.
  split; [reflexivity | destruct s; reflexivity].
Qed.

Lemma countdown_runs_down_witness :
  run (ticks 1 3) asked = set_timeLeft (timeLeft asked - Z.of_nat 3) asked /\
  withoutTime (run (ticks 1 3) asked) = withoutTime asked.
Proof.
  apply (countdown_runs_down 3 asked 1%nat).
  - vm_compute. left. reflexivity.
  - reflexivity.
  - vm_compute. reflexivity.
Defined.

Lemma current_set_timeLeft : forall v s, current (set_timeLeft v s) = current s.
Proof. reflexivity. Qed.

(** X2.  The tick that takes the clock to 0 times the question out, once:
    countdown cancelled, choice [null], streak 0, Next enabled, no card
    clickable; score and counters as before; later ticks do nothing. *)
Theorem countdown_times_out_once : forall n m s id q,
  timer s = Some id -> In id (intervals s) -> isFrozen s = false ->
  current s = Some q -> timeLeft s = Z.of_nat (S n) ->
  let t := run (ticks id (S n)) s in
  run (ticks id (S n + m)) s = t /\
  timeLeft t = 0 /\
  current t = Some (set_userSelected null q) /\
  streak t = 0 /\
  score t = score s /\ correctCount t = correctCount s /\
  wrongCount t = wrongCount s /\
  nextBtn_disabled t = false /\
  ~ In id (intervals t) /\
  Forall (fun c => onclick c = None) (cards t).
Proof.
  intros n m s id q Ht Hin Hfr Hq Hn t.
  assert (E1 : run (ticks id n) s = set_timeLeft 1 s).
  { rewrite ticks_above_zero by (try assumption; lia). f_equal. lia. }
  assert (E2 : t = state_of (handleTimeOut
                  (clearInterval (Some id) (set_timeLeft 0 s)))).
  { subst t. unfold ticks.
    replace (S n) with (n + 1)%nat by lia. rewrite repeat_app.
    rewrite run_app. fold (ticks id n). rewrite E1. cbn [repeat run fold_left].
    unfold step. rewrite tick_live by exact Hin. unfold tick. cbn.
    rewrite Hfr, Ht. reflexivity. }
  assert (E3 : t = set_nextBtn_disabled false
                 (set_streak 0
                    (set_cards (map unclick (cards s))
                       (record_choice null q
                          (clearInterval (Some id) (set_timeLeft 0 s)))))).
  { rewrite E2. unfold handleTimeOut.
    assert (current (clearInterval (Some id) (set_timeLeft 0 s)) = Some q)
      as -> by exact Hq.
    reflexivity. }
  assert (Hdead : ~ In id (intervals t)).
  { rewrite E3. cbn. apply remove_In. }
  splits.
  - unfold ticks. rewrite repeat_app, run_app. fold (ticks id (S n)) (ticks id m).
    fold t. apply ticks_dead. exact Hdead.
  - rewrite E3. reflexivity.
  - rewrite E3.
    change (current (record_choice null q
                       (clearInterval (Some id) (set_timeLeft 0 s))) =
            Some (set_userSelected null q)).
    apply current_record_choice. exact Hq.
  - rewrite E3. reflexivity.
  - rewrite E3. reflexivity.
  - rewrite E3. reflexivity.
  - rewrite E3. reflexivity.
  - rewrite E3. reflexivity.
  - exact Hdead.
  - rewrite E3. cbn. apply Forall_forall. intros c Hc.
    apply in_map_iff in Hc. destruct Hc as (c' & <- & _). reflexivity.
Qed.

Lemma countdown_times_out_once_witness :
  let t := run (ticks 1 15) asked in
  run (ticks 1 (15 + 4)) asked = t /\ timeLeft t = 0 /\
  current t = Some (set_userSelected null q1) /\ streak t = 0.
Proof.
  destruct (countdown_times_out_once 14 4 asked 1%nat q1)
    as (H1 & H2 & H3 & H4 & _).
  - reflexivity.
  - vm_compute. left. reflexivity.
  - reflexivity.
  - reflexivity.
  - vm_compute. reflexivity.
  - cbv zeta. splits; [exact H1 | exact H2 | exact H3 | exact H4].
Defined.

Lemma tick_frozen : forall s id, isFrozen s = true -> step (Tick id) s = s.
Proof.
  intros s id H. unfold step. cbn.
  destruct (existsb (Nat.eqb id) (intervals s)); [|reflexivity].
  unfold tick. rewrite H. reflexivity.
Qed.

Lemma ticks_frozen : forall n s id,
  isFrozen s = true -> run (ticks id n) s = s.
Proof.
  induction n as [|n IH]; intros s id H; cbn; [reflexivity|].
  rewrite tick_frozen by exact H. apply IH. exact H.
Qed.

(** X3.  The freeze lifeline holds the clock: the ticks between its use and
    its callback are lost, and the countdown resumes from the time that
    was left. *)
Theorem freeze_holds_the_clock : forall k s id,
  freeze (lifelines s) = true ->
  let t := run (Freeze :: ticks id k ++ [Unfreeze]) s in
  t = run [Freeze; Unfreeze] s /\
  timeLeft t = timeLeft s /\ isFrozen t = false /\
  freeze (lifelines t) = false.
Proof.
  intros k s id Hf t.
  assert (Hz : isFrozen (step Freeze s) = true).
  { unfold step, dispatch, useFreeze. rewrite Hf. reflexivity. }
  assert (E : t = run [Freeze; Unfreeze] s).
  { subst t. change (Freeze :: ticks id k ++ [Unfreeze])
      with ([Freeze] ++ ticks id k ++ [Unfreeze]).
    rewrite !run_app. change (run [Freeze] s) with (step Freeze s).
    rewrite ticks_frozen by exact Hz. reflexivity. }
  split; [exact E|]. rewrite E. cbn.
  unfold step, dispatch, useFreeze. rewrite Hf. cbn. auto.
Qed.

Lemma freeze_holds_the_clock_witness :
  let t := run (Freeze :: ticks 1 5 ++ [Unfreeze]) asked in
  t = run [Freeze; Unfreeze] asked /\ timeLeft t = timeLeft asked /\
  isFrozen t = false /\ freeze (lifelines t) = false.
Proof.
  apply (freeze_holds_the_clock 5 asked 1%nat). reflexivity.
Defined.

(** ** One countdown, and lifelines that stay spent *)

Lemma single_countdown_timers : forall s t,
  timers s = timers t -> single_countdown s -> single_countdown t.
Proof.
  intros s t H. unfold timers in H. injection H as H1 H2 H3.
  unfold single_countdown. rewrite H1, H2, H3. tauto.
Qed.

Lemma clearInterval_timer : forall h s,
  timer (clearInterval h s) = timer s /\ nextId (clearInterval h s) = nextId s.
Proof. intros [k|] s; split; reflexivity. Qed.

Lemma single_countdown_clearInterval : forall s,
  single_countdown s ->
  intervals (clearInterval (timer s) s) = [] /\
  single_countdown (clearInterval (timer s) s).
Proof.
  intros s [H Hn].
  assert (Hnil : intervals (clearInterval (timer s) s) = []).
  { destruct H as [H | (id & H & Ht)].
    - unfold clearInterval. destruct (timer s); cbn; rewrite H; reflexivity.
    - rewrite Ht. cbn. rewrite H. cbn.
      destruct (Nat.eq_dec id id); [reflexivity | contradiction]. }
  split; [exact Hnil|]. split; [left; exact Hnil|].
  destruct (clearInterval_timer (timer s) s) as [-> ->]. exact Hn.
Qed.

Lemma single_countdown_startTimer : forall s,
  single_countdown s -> single_countdown (startTimer s).
Proof.
  intros s H. apply single_countdown_clearInterval in H.
  destruct H as [Hnil _]. unfold startTimer.
  set (s1 := clearInterval (timer s) s) in *.
  split; cbn.
  - right. exists (nextId s1). rewrite Hnil. split; reflexivity.
  - intros id [= <-]. lia.
Qed.

(** X4.  Whatever happens, at most one countdown is live, the one the
    script holds in [STATE.timer]. *)
Theorem single_countdown_kept : forall es s,
  single_countdown s ->
  single_countdown (run es s) /\ (List.length (intervals (run es s)) <= 1)%nat.
Proof.
  assert (Hstep : forall e s, single_countdown s -> single_countdown (step e s)).
  { intros e s H. destruct (step_timers e s) as [E | [E | E]];
      apply (single_countdown_timers _ _ (eq_sym E)).
    - exact H.
    - apply single_countdown_clearInterval. exact H.
    - apply single_countdown_startTimer. exact H. }
  assert (Hrun : forall es s, single_countdown s -> single_countdown (run es s)).
  { induction es as [|e es IH]; intros s H; cbn; [exact H|].
    apply IH, Hstep, H. }
  intros es s H. split; [apply Hrun; exact H|].
  destruct (Hrun es s H) as [[E | (id & E & _)] _]; rewrite E; cbn; lia.
Qed.

Lemma single_countdown_kept_witness :
  single_countdown (run [Start ""%string [q1; q2]; Click 1; Unlock; Next] STATE) /\
  (List.length (intervals (run [Start ""%string [q1; q2]; Click 1; Unlock; Next] STATE)) <= 1)%nat.
Proof.
  apply (single_countdown_kept [Start ""%string [q1; q2]; Click 1; Unlock; Next] STATE).
  split; [left; reflexivity | discriminate].
Defined.

(** X5.  Within a session a lifeline that is spent stays spent. *)
Theorem lifelines_never_return : forall es s,
  forallb inSession es = true ->
  (fifty (lifelines s) = false -> fifty (lifelines (run es s)) = false) /\
  (freeze (lifelines s) = false -> freeze (lifelines (run es s)) = false) /\
  (skip (lifelines s) = false -> skip (lifelines (run es s)) = false).
Proof.
  assert (Hstep : forall e s, inSession e = true ->
            (fifty (lifelines s) = false -> fifty (lifelines (step e s)) = false) /\
            (freeze (lifelines s) = false -> freeze (lifelines (step e s)) = false) /\
            (skip (lifelines s) = false -> skip (lifelines (step e s)) = false)).
  { intros e s He. unfold step.
    destruct e; try discriminate; cbn; unfold_handlers; cbn;
      split_cases; cbn; splits; auto; congruence. }
  induction es as [|e es IH]; intros s Hes; cbn in *; [tauto|].
  apply andb_true_iff in Hes. destruct Hes as [He Hes].
  destruct (Hstep e s He) as (H1 & H2 & H3).
  destruct (IH (step e s) Hes) as (I1 & I2 & I3). splits; auto.
Qed.

Lemma lifelines_never_return_witness :
  fifty (lifelines (run [Click 1; Unlock; Next; FiftyFifty]
                      (step FiftyFifty asked))) = false.
Proof.
  apply (lifelines_never_return [Click 1; Unlock; Next; FiftyFifty]
           (step FiftyFifty asked)).
  - reflexivity.
  - vm_compute. reflexivity.
Defined.

(** ** Level, streak and counters *)



(** X7.  An incorrect answer scores nothing: the score, the XP and the level
    stay, the streak falls to 0, [wrongCount] grows by one, the choice is
    recorded and the countdown stopped. *)
Theorem wrong_answer_resets_streak : forall s q selected correct,
  nextBtn_disabled s = true ->
  current s = Some q ->
  selected <> correct ->
  exists s', handleAnswer selected correct s = Normal s' /\
    score s' = score s /\ xp s' = xp s /\ level s' = level s /\
    streak s' = 0 /\
    wrongCount s' = wrongCount s + 1 /\ correctCount s' = correctCount s /\
    current s' = Some (set_userSelected (chosen selected) q) /\
    (forall id, timer s = Some id -> ~ In id (intervals s')).
Proof.
  intros s q selected correct Hn Hq Hne.
  unfold handleAnswer. rewrite Hn. cbn [negb].
  assert (Hq1 : current (clearInterval (timer s) s) = Some q).
  { unfold clearInterval. destruct (timer s); exact Hq. }
  rewrite Hq1. apply String.eqb_neq in Hne. rewrite Hne.
  eexists. split; [reflexivity|]. cbn.
  splits; try (unfold clearInterval; destruct (timer s); reflexivity).
  - change (current (record_choice (chosen selected) q
                       (clearInterval (timer s) s)) =
            Some (set_userSelected (chosen selected) q)).
    apply current_record_choice. exact Hq1.
  - intros id Hid. rewrite Hid. cbn. apply remove_In.
Qed.

Lemma wrong_answer_resets_streak_witness :
  exists s', handleAnswer "3" "4" asked = Normal s' /\
    score s' = score asked /\ xp s' = xp asked /\ level s' = level asked /\
    streak s' = 0 /\ wrongCount s' = wrongCount asked + 1.
Proof.
  destruct (wrong_answer_resets_streak asked q1 "3"%string "4"%string)
    as (s' & H1 & H2 & H3 & H4 & H5 & H6 & _).
  - reflexivity.
  - reflexivity.
  - discriminate.
  - exists s'. splits; assumption.
Defined.

(** X8.  The streak never exceeds the number of correct answers counted,
    and no counter is negative. *)
Theorem streak_within_correct_answers : forall es s,
  tallied s -> tallied (run es s).
Proof.
  assert (Hstep : forall e s, tallied s -> tallied (step e s)).
  { intros e s H. unfold step, tallied in *.
    destruct e; cbn; unfold_handlers; cbn; split_cases; cbn; lia. }
  induction es as [|e es IH]; intros s H; cbn; [exact H|].
  apply IH, Hstep, H.
Qed.

Lemma streak_within_correct_answers_witness :
  tallied (run [Start ""%string [q1; q2]; Click 1; Unlock; Next; Click 1] STATE).
Proof.
  apply (streak_within_correct_answers
           [Start ""%string [q1; q2]; Click 1; Unlock; Next; Click 1] STATE).
  vm_compute. intuition discriminate.
Defined.

(** ** What can and cannot throw, and what [goHome] leaves behind *)

Lemma currIndex_nonnegative : forall es s,
  0 <= currIndex s -> 0 <= currIndex (run es s).
Proof.
  assert (Hstep : forall e s, 0 <= currIndex s -> 0 <= currIndex (step e s)).
  { intros e s H. unfold step.
    destruct e; cbn; unfold_handlers; cbn; split_cases; cbn; lia. }
  induction es as [|e es IH]; intros s H; cbn; [exact H|].
  apply IH, Hstep, H.
Qed.

Lemma renderQuestion_returns : forall s,
  0 <= currIndex s < Z.of_nat (List.length (questions s)) ->
  exists t, renderQuestion s = Normal t.
Proof.
  intros s H. unfold renderQuestion, current, JS.index.
  destruct (currIndex s <? 0) eqn:E; [apply Z.ltb_lt in E; lia|].
  destruct (nth_error (questions s) (Z.to_nat (currIndex s))) eqn:En.
  - eexists. reflexivity.
  - apply nth_error_None in En. lia.
Qed.

Lemma nextQuestion_returns : forall s,
  0 <= currIndex s -> exists t, nextQuestion s = Normal t.
Proof.
  intros s H. unfold nextQuestion. cbn.
  destruct (currIndex s + 1 <? Z.of_nat (List.length (questions s))) eqn:E.
  - apply Z.ltb_lt in E. apply renderQuestion_returns. cbn. lia.
  - eexists. reflexivity.
Qed.

(** X9.  Starting a game, the Next button, the skip lifeline, the freeze
    lifeline, the two callbacks and the way home never throw: when they
    render a question, there is one. *)
Theorem advancing_never_throws : forall es s e,
  0 <= currIndex s ->
  reads_no_question e = true ->
  exists t, dispatch e (run es s) = Normal t.
Proof.
  intros es s e H He.
  pose proof (currIndex_nonnegative es s H) as Hi.
  set (r := run es s) in *. clearbody r.
  destruct e; try discriminate; cbn.
  - destruct qs as [|q0 qs']; [eexists; reflexivity|].
    unfold startGame. apply renderQuestion_returns. cbn. lia.
  - destruct (unlocks r); eexists; reflexivity.
  - destruct (unfreezes r); eexists; reflexivity.
  - destruct (nextBtn_disabled r); [eexists; reflexivity|].
    apply nextQuestion_returns. exact Hi.
  - eexists. reflexivity.
  - unfold useSkip. destruct (skip (lifelines r)); cbn [negb];
      [|eexists; reflexivity].
    apply nextQuestion_returns.
    unfold clearInterval. cbn. destruct (timer r); exact Hi.
  - eexists. reflexivity.
Qed.

Lemma advancing_never_throws_witness :
  exists t,
    dispatch Next (run [Start ""%string [q1]; Click 1; Unlock; Next; Home] STATE) =
    Normal t.
Proof.
  apply (advancing_never_throws
           [Start ""%string [q1]; Click 1; Unlock; Next; Home] STATE Next).
  - vm_compute. discriminate.
  - reflexivity.
Defined.

(** X10.  [goHome] does not stop the clock: the countdown stays live, and the
    tick that takes it to 0 throws in [handleTimeOut], on the emptied
    question list, before the streak or the Next button is touched. *)
Theorem goHome_leaves_countdown_running : forall s id,
  In id (intervals s) -> isFrozen s = false -> timeLeft s <= 1 ->
  intervals (goHome s) = intervals s /\
  timer (goHome s) = timer s /\
  exists t, dispatch (Tick id) (goHome s) = Throw t /\
    timeLeft t = timeLeft s - 1 /\
    streak t = streak s /\
    nextBtn_disabled t = nextBtn_disabled s /\
    questions t = [].
Proof.
  intros s id Hin Hfr Hle. splits; try reflexivity.
  rewrite tick_live by exact Hin.
  unfold tick. cbn. rewrite Hfr.
  destruct (timeLeft s - 1 <=? 0) eqn:E; [|apply Z.leb_gt in E; lia].
  unfold handleTimeOut.
  assert (Hnone : forall t, questions t = [] -> current t = None).
  { intros t Ht. unfold current, JS.index. rewrite Ht.
    destruct (currIndex t <? 0); [reflexivity|].
    destruct (Z.to_nat (currIndex t)); reflexivity. }
  rewrite Hnone by (unfold clearInterval; destruct (timer s); reflexivity).
  eexists. split; [reflexivity|].
  unfold clearInterval; destruct (timer s); cbn; auto.
Qed.

Lemma goHome_leaves_countdown_running_witness :
  let s := run (ticks 1 14) asked in
  intervals (goHome s) = intervals s /\ timer (goHome s) = timer s /\
  exists t, dispatch (Tick 1) (goHome s) = Throw t /\
    timeLeft t = timeLeft s - 1.
Proof.
  intros s.
  destruct (goHome_leaves_countdown_running s 1%nat)
    as (H1 & H2 & t & H3 & H4 & _).
  - vm_compute. left. reflexivity.
  - vm_compute. reflexivity.
  - vm_compute. discriminate.
  - splits; [exact H1 | exact H2 |]. exists t. split; [exact H3 | exact H4].
Defined.

Lemma start_frame : forall s d q qs,
  exists t, dispatch (Start d (q :: qs)) s = Normal t /\
    current t = Some q /\ nextBtn_disabled t = nextBtn_disabled s /\
    currIndex t = 0 /\ questions t = q :: qs.
Proof.
  intros s d q qs. unfold dispatch, startGame, renderQuestion, current. cbn.
  eexists. split; [reflexivity|].
  unfold startTimer, clearInterval. cbn. destruct (timer s); cbn; auto.
Qed.

Lemma next_enabled : forall t,
  nextBtn_disabled t = false -> step Next t = state_of (nextQuestion t).
Proof. intros t H. unfold step, dispatch. rewrite H. reflexivity. Qed.

(** X11.  [startGame] does not touch the Next button.  If it was enabled
    when the last session was left, every answer to the first question of
    the new session is ignored, and Next moves on with the question
    unanswered. *)
Theorem startGame_keeps_next_button : forall s d q qs,
  nextBtn_disabled s = false ->
  let s' := step (Start d (q :: qs)) s in
  current s' = Some q /\
  nextBtn_disabled s' = false /\
  (forall i, step (Click i) s' = s') /\
  currIndex (step Next s') = 1 /\
  JS.index (questions (step Next s')) 0 = Some q.
Proof.
  intros s d q qs Hn s'.
  destruct (start_frame s d q qs) as (t & Et & H1 & H2 & H3 & H4).
  assert (Es : s' = t) by (subst s'; unfold step; rewrite Et; reflexivity).
  clearbody s'. subst s'. rewrite Hn in H2.
  destruct (nextQuestion_frame t) as (_ & _ & _ & _ & _ & _ & F7 & F8).
  cbn zeta in F7, F8.
  splits; try assumption.
  - intros i. apply click_ignored_when_unlocked. exact H2.
  - rewrite next_enabled by exact H2. rewrite F8, H3. reflexivity.
  - rewrite next_enabled by exact H2. rewrite F7, H4. reflexivity.
Qed.

Lemma startGame_keeps_next_button_witness :
  let s := goHome (run [Click 1; Unlock] asked) in
  let s' := step (Start ""%string [q2; q1]) s in
  current s' = Some q2 /\ nextBtn_disabled s' = false /\
  (forall i, step (Click i) s' = s') /\ currIndex (step Next s') = 1.
Proof.
  intros s.
  destruct (startGame_keeps_next_button s ""%string q2 [q1])
    as (H1 & H2 & H3 & H4 & _).
  - vm_compute. reflexivity.
  - cbv zeta. splits; [exact H1 | exact H2 | exact H3 | exact H4].
Defined.

(** ** The review screen *)

Lemma reviewItems_nth : forall qs i k,
  nth_error (reviewItems i qs) k =
  option_map (reviewItem (i + k)) (nth_error qs k).
Proof.
  induction qs as [|q qs IH]; intros i [|k]; cbn; try reflexivity.
  - rewrite Nat.add_0_r. reflexivity.
  - rewrite IH. replace (S i + k)%nat with (i + S k)%nat by lia. reflexivity.
Qed.

Lemma reviewClass_chosen : forall q a ans,
  reviewClass (set_userSelected (chosen a) q) ans = classAfter q a ans.
Proof.
  intros q a ans. unfold reviewClass, classAfter, picked. cbn.
  destruct (ans =? a)%string eqn:Ea.
  - apply String.eqb_eq in Ea. subst ans.
    destruct (a =? correct_answer q)%string; reflexivity.
  - destruct (ans =? correct_answer q)%string; reflexivity.
Qed.

(** X12.  The review shows what happened.  After an accepted answer the
    entry of the question marks the chosen option, as picked and correct or
    as wrong, and the correct option; after a timeout it marks the correct
    option only. *)
Theorem review_shows_outcome : forall s q,
  current s = Some q ->
  (forall a, nextBtn_disabled s = true ->
     exists s', handleAnswer a (correct_answer q) s = Normal s' /\
       nth_error (showReview s') (Z.to_nat (currIndex s)) =
       Some (mkReviewItem (Z.to_nat (currIndex s) + 1) (question q)
               (map (fun ans => (classAfter q a ans, ans)) (answers q)))) /\
  (exists s', handleTimeOut s = Normal s' /\
     nth_error (showReview s') (Z.to_nat (currIndex s)) =
     Some (mkReviewItem (Z.to_nat (currIndex s) + 1) (question q)
             (map (fun ans => (classUnanswered q ans, ans)) (answers q)))).
Proof.
  intros s q Hq.
  assert (Hitem : forall v t,
            questions t = questions (record_choice v q s) ->
            nth_error (showReview t) (Z.to_nat (currIndex s)) =
            Some (reviewItem (Z.to_nat (currIndex s)) (set_userSelected v q))).
  { intros v t Ht. unfold showReview. rewrite reviewItems_nth, Ht.
    pose proof (current_record_choice v q s Hq) as Hc.
    apply index_nth_error in Hc.
    change (currIndex (record_choice v q s)) with (currIndex s) in Hc.
    rewrite Hc. reflexivity. }
  split.
  - intros a Hn. unfold handleAnswer. rewrite Hn. cbn [negb].
    assert (Hq1 : current (clearInterval (timer s) s) = Some q).
    { unfold clearInterval. destruct (timer s); exact Hq. }
    rewrite Hq1. eexists. split; [reflexivity|].
    rewrite (Hitem (chosen a)).
    + unfold reviewItem. cbn. f_equal. f_equal. apply map_ext.
      intros ans. rewrite reviewClass_chosen. reflexivity.
    + destruct (a =? correct_answer q)%string; unfold addXP, clearInterval;
        cbn; split_cases; destruct (timer s); reflexivity.
  - unfold handleTimeOut. rewrite Hq. eexists. split; [reflexivity|].
    rewrite (Hitem null) by reflexivity.
    unfold reviewItem. cbn. f_equal.
Qed.

Lemma review_shows_outcome_witness :
  exists s', handleTimeOut asked = Normal s' /\
    nth_error (showReview s') (Z.to_nat (currIndex asked)) =
    Some (mkReviewItem (Z.to_nat (currIndex asked) + 1) (question q1)
            (map (fun ans => (classUnanswered q1 ans, ans)) (answers q1))).
Proof.
  exact (proj2 (review_shows_outcome asked q1 eq_refl)).
Defined.

(** ** The question supply *)

Lemma rearranges_rev : forall A : Type, rearranges (@rev A).
Proof. intros A l. apply Permutation_sym. apply Permutation_rev. Qed.

Lemma In_firstn : forall (A : Type) n (l : list A) x,
  In x (firstn n l) -> In x l.
Proof.
  intros A n l x H. rewrite <- (firstn_skipn n l). apply in_or_app. auto.
Qed.

Lemma slice_positive : forall (A : Type) (a : list A) e,
  1 <= e ->
  slice a e = firstn (Z.to_nat e) a /\
  Z.of_nat (List.length (slice a e)) = Z.min e (Z.of_nat (List.length a)).
Proof.
  intros A a e He. unfold slice.
  destruct (e <? 0) eqn:E; [apply Z.ltb_lt in E; lia|].
  destruct (Z.le_gt_cases e (Z.of_nat (List.length a))) as [Hle | Hgt].
  - rewrite Z.min_l by exact Hle. split; [reflexivity|].
    rewrite firstn_length_le by lia. lia.
  - rewrite Z.min_r by lia. rewrite Nat2Z.id.
    rewrite firstn_all, firstn_all2 by lia. split; [reflexivity | lia].
Qed.

Lemma toGame_length : forall sa docs i,
  List.length (toGame sa i docs) = List.length docs.
Proof.
  induction docs as [|d docs IH]; intros i; cbn; [reflexivity|].
  rewrite IH. reflexivity.
Qed.

Lemma toGame_spec : forall sa docs i,
  (forall k, rearranges (sa k)) ->
  Forall shuffled (toGame sa i docs) /\ drawnFrom docs (toGame sa i docs).
Proof.
  intros sa docs i Hsa. revert i.
  induction docs as [|d docs IH]; intros i; cbn.
  - split; constructor.
  - destruct (IH (S i)) as [H1 H2]. split; constructor; try assumption.
    + unfold shuffled. cbn. apply Hsa.
    + exists d. split; [left; reflexivity|]. repeat split.
    + eapply Forall_impl; [|exact H2]. cbn.
      intros q (d' & Hd & Hq). exists d'. split; [right; exact Hd | exact Hq].
Qed.

Lemma drawnFrom_incl : forall pool pool' qs,
  (forall d, In d pool -> In d pool') -> drawnFrom pool qs -> drawnFrom pool' qs.
Proof.
  intros pool pool' qs H. unfold drawnFrom. apply Forall_impl.
  intros q (d & Hd & Hq). exists d. split; [apply H; exact Hd | exact Hq].
Qed.

Lemma toGame_drawn : forall sa docs i, drawnFrom docs (toGame sa i docs).
Proof.
  intros sa docs. induction docs as [|d docs IH]; intros i; cbn.
  - constructor.
  - constructor.
    + exists d. split; [left; reflexivity | repeat split].
    + eapply drawnFrom_incl; [|apply IH]. intros; right; assumption.
Qed.

(** With at least one question asked for and something in one of the first
    two snapshots, the third fallback and the second seeding are not
    reached: the selection is cut from the shuffled supply. *)
Lemma fetchQuestions_supply : forall snapshot retrySnapshot finalSnap now
    amount sd sa,
  rearranges sd -> 1 <= amount ->
  supply now snapshot retrySnapshot <> [] ->
  slice (sd (supply now snapshot retrySnapshot)) amount <> [] /\
  fetchQuestions snapshot retrySnapshot finalSnap now amount sd sa =
  Delivered
    (toGame sa 0 (slice (sd (supply now snapshot retrySnapshot)) amount)).
Proof.
  intros snapshot retry final now amount sd sa Hsd Ha Hne.
  assert (Hcut : forall pool, pool <> [] -> slice (sd pool) amount <> []).
  { intros pool Hp Hs.
    destruct (slice_positive _ (sd pool) amount Ha) as [_ Hl].
    rewrite Hs in Hl. cbn in Hl.
    rewrite (Permutation_length (Hsd pool)) in Hl.
    destruct pool; [contradiction | cbn in Hl; lia]. }
  split; [apply Hcut; exact Hne|].
  assert (Hfin : forall pool, pool <> [] ->
            match slice (sd pool) amount with
            | [] => Failed "No questions available."
            | _ :: _ => Delivered (toGame sa 0 (slice (sd pool) amount))
            end = Delivered (toGame sa 0 (slice (sd pool) amount))).
  { intros pool Hp. specialize (Hcut pool Hp).
    destruct (slice (sd pool) amount); [contradiction | reflexivity]. }
  unfold fetchQuestions, supply in *.
  destruct snapshot as [|d0 snap].
  - destruct retry as [|r0 retry]; [contradiction|].
    cbn [List.length].
    destruct (Z.of_nat (S (List.length retry)) <? amount);
      cbn [List.length];
      destruct (Z.of_nat (S (List.length retry)) <? amount);
      apply Hfin; discriminate.
  - destruct (filter (fresh now) (d0 :: snap)) as [|f0 f] eqn:Ef.
    + cbn [List.length app]. change (Z.of_nat 0) with 0.
      assert ((0 <? amount) = true) as -> by (apply Z.ltb_lt; lia).
      cbn [List.length app].
      destruct (Z.of_nat (S (List.length snap)) <? amount);
        apply Hfin; discriminate.
    + cbn [List.length].
      destruct (Z.of_nat (S (List.length f)) <? amount);
        cbn [List.length];
        destruct (Z.of_nat (S (List.length f)) <? amount);
        apply Hfin; discriminate.
Qed.

(** X13.  A fetch for at least one question fails only when the collection
    is empty before and after the seeding; otherwise it delivers between
    one and [amount] questions, each with its answers in some order and
    made from a document of the snapshots. *)
Theorem fetchQuestions_delivers : forall snapshot retrySnapshot finalSnap
    now amount sd sa,
  rearranges sd -> (forall k, rearranges (sa k)) -> 1 <= amount ->
  match fetchQuestions snapshot retrySnapshot finalSnap now amount sd sa with
  | Failed message =>
      snapshot = [] /\ retrySnapshot = [] /\
      message = "API Limit Reached or Network Error."%string
  | Delivered qs =>
      (snapshot <> [] \/ retrySnapshot <> []) /\
      qs <> [] /\
      Z.of_nat (List.length qs) <= amount /\
      Forall shuffled qs /\
      drawnFrom (snapshot ++ retrySnapshot) qs
  end.
Proof.
  intros snapshot retry final now amount sd sa Hsd Hsa Ha.
  destruct (supply now snapshot retry) as [|p0 pool] eqn:Es.
  - assert (snapshot = [] /\ retry = []) as [-> ->].
    { unfold supply in Es. destruct snapshot as [|d0 snap]; [auto|].
      destruct (filter (fresh now) (d0 :: snap)); discriminate. }
    cbn. auto.
  - destruct (fetchQuestions_supply snapshot retry final now amount sd sa
                Hsd Ha) as [Hcut ->]; [rewrite Es; discriminate|].
    rewrite Es in *.
    destruct (slice_positive _ (sd (p0 :: pool)) amount Ha) as [Hs Hl].
    destruct (toGame_spec sa (slice (sd (p0 :: pool)) amount) 0 Hsa)
      as [H1 H2].
    splits.
    + unfold supply in Es. destruct snapshot; [right | left]; [|discriminate].
      rewrite Es. discriminate.
    + intros E. apply (f_equal (@List.length _)) in E.
      rewrite toGame_length in E.
      destruct (slice (sd (p0 :: pool)) amount); [contradiction | discriminate].
    + rewrite toGame_length. lia.
    + exact H1.
    + eapply drawnFrom_incl; [|exact H2]. intros d Hd.
      rewrite Hs in Hd. apply In_firstn in Hd.
      apply (Permutation_in _ (Hsd _)) in Hd. rewrite <- Es in Hd.
      unfold supply in Hd. apply in_or_app.
      destruct snapshot as [|d0 snap]; [right; exact Hd | left].
      destruct (filter (fresh now) (d0 :: snap)) eqn:Ef; [exact Hd|].
      rewrite <- Ef in Hd. apply filter_In in Hd. tauto.
Qed.

Lemma fetchQuestions_delivers_witness :
  match fetchQuestions [doc1; doc2] [] [] now0 5 (@rev _) (fun _ => @rev _) with
  | Failed message =>
      [doc1; doc2] = [] /\ @nil Doc.t = [] /\
      message = "API Limit Reached or Network Error."%string
  | Delivered qs =>
      ([doc1; doc2] <> [] \/ @nil Doc.t <> []) /\
      qs <> [] /\
      Z.of_nat (List.length qs) <= 5 /\
      Forall shuffled qs /\
      drawnFrom ([doc1; doc2] ++ []) qs
  end.
Proof.
  apply (fetchQuestions_delivers [doc1; doc2] [] [] now0 5 (@rev _)
           (fun _ => @rev _)).
  - apply rearranges_rev.
  - intros k. apply rearranges_rev.
  - lia.
Defined.

(** X14.  The cooldown.  When the collection holds a document that was not
    used in the last 48 hours, only such documents are drawn: as many as
    asked for, or all the fresh ones if they are fewer. *)
Theorem fetchQuestions_prefers_fresh : forall snapshot retrySnapshot finalSnap
    now amount sd sa,
  rearranges sd -> 1 <= amount ->
  filter (fresh now) snapshot <> [] ->
  exists qs,
    fetchQuestions snapshot retrySnapshot finalSnap now amount sd sa =
    Delivered qs /\
    drawnFrom (filter (fresh now) snapshot) qs /\
    Z.of_nat (List.length qs) =
    Z.min amount (Z.of_nat (List.length (filter (fresh now) snapshot))).
Proof.
  intros snapshot retry final now amount sd sa Hsd Ha Hf.
  assert (Es : supply now snapshot retry = filter (fresh now) snapshot).
  { unfold supply. destruct snapshot as [|d0 snap]; [contradiction|].
    destruct (filter (fresh now) (d0 :: snap)); [contradiction | reflexivity]. }
  destruct (fetchQuestions_supply snapshot retry final now amount sd sa Hsd Ha)
    as [_ ->]; [rewrite Es; exact Hf|].
  rewrite Es. eexists. split; [reflexivity|].
  destruct (slice_positive _ (sd (filter (fresh now) snapshot)) amount Ha)
    as [Hs Hl].
  split.
  - eapply drawnFrom_incl; [|apply toGame_drawn]. intros d Hd.
    rewrite Hs in Hd. apply In_firstn in Hd.
    apply (Permutation_in _ (Hsd _)) in Hd. exact Hd.
  - rewrite toGame_length, Hl, (Permutation_length (Hsd _)). reflexivity.
Qed.

Lemma fetchQuestions_prefers_fresh_witness :
  exists qs,
    fetchQuestions [doc1; doc2] [] [] now0 1 (@rev _) (fun _ => @rev _) =
    Delivered qs /\
    drawnFrom (filter (fresh now0) [doc1; doc2]) qs /\
    Z.of_nat (List.length qs) =
    Z.min 1 (Z.of_nat (List.length (filter (fresh now0) [doc1; doc2]))).
Proof.
  apply (fetchQuestions_prefers_fresh [doc1; doc2] [] [] now0 1 (@rev _)
           (fun _ => @rev _)).
  - apply rearranges_rev.
  - lia.
  - vm_compute. discriminate.
Defined.

(** X15.  When every document of the collection was used in the last 48
    hours, the cooldown is given up: the questions are drawn from the
    whole collection. *)
Theorem fetchQuestions_reuses_when_nothing_fresh : forall snapshot
    retrySnapshot finalSnap now amount sd sa,
  rearranges sd -> 1 <= amount ->
  snapshot <> [] -> filter (fresh now) snapshot = [] ->
  exists qs,
    fetchQuestions snapshot retrySnapshot finalSnap now amount sd sa =
    Delivered qs /\
    qs = toGame sa 0 (slice (sd snapshot) amount) /\
    Z.of_nat (List.length qs) =
    Z.min amount (Z.of_nat (List.length snapshot)) /\
    Forall (fun q => exists d,
              In d snapshot /\ fresh now d = false /\ fromDoc d q) qs.
Proof.
  intros snapshot retry final now amount sd sa Hsd Ha Hne Hf.
  assert (Es : supply now snapshot retry = snapshot).
  { unfold supply. destruct snapshot as [|d0 snap]; [contradiction|].
    rewrite Hf. reflexivity. }
  destruct (fetchQuestions_supply snapshot retry final now amount sd sa Hsd Ha)
    as [_ ->]; [rewrite Es; exact Hne|].
  rewrite Es. eexists. split; [reflexivity|]. split; [reflexivity|].
  destruct (slice_positive _ (sd snapshot) amount Ha) as [Hs Hl].
  split.
  - rewrite toGame_length, Hl, (Permutation_length (Hsd _)). reflexivity.
  - eapply Forall_impl; [|apply toGame_drawn]. cbn.
    intros q (d & Hd & Hq). exists d.
    rewrite Hs in Hd. apply In_firstn in Hd.
    apply (Permutation_in _ (Hsd _)) in Hd.
    splits; [exact Hd | | exact Hq].
    destruct (fresh now d) eqn:E; [|reflexivity].
    assert (Hin : In d (filter (fresh now) snapshot))
      by (apply filter_In; auto).
    rewrite Hf in Hin. destruct Hin.
Qed.

Lemma fetchQuestions_reuses_when_nothing_fresh_witness :
  exists qs,
    fetchQuestions [doc2] [] [] now0 3 (@rev _) (fun _ => @rev _) =
    Delivered qs /\
    qs = toGame (fun _ => @rev _) 0 (slice (rev [doc2]) 3) /\
    Z.of_nat (List.length qs) = Z.min 3 (Z.of_nat (List.length [doc2])) /\
    Forall (fun q => exists d,
              In d [doc2] /\ fresh now0 d = false /\ fromDoc d q) qs.
Proof.
  apply (fetchQuestions_reuses_when_nothing_fresh [doc2] [] [] now0 3
           (@rev _) (fun _ => @rev _)).
  - apply rearranges_rev.
  - lia.
  - discriminate.
  - vm_compute. reflexivity.
Defined.

(** X16.  The second seeding is never reached: whatever the third query
    would return, for every requested amount, the outcome is the same. *)
Theorem fetchQuestions_ignores_final_snapshot : forall snapshot retrySnapshot
    finalSnap finalSnap' now amount sd sa,
  fetchQuestions snapshot retrySnapshot finalSnap now amount sd sa =
  fetchQuestions snapshot retrySnapshot finalSnap' now amount sd sa.
Proof.
  intros snapshot retry final final' now amount sd sa.
  unfold fetchQuestions.
  destruct snapshot as [|d0 snap].
  - destruct retry as [|r0 retry]; reflexivity.
  - destruct (filter (fresh now) (d0 :: snap)); reflexivity.
Qed.

(** ** The next set *)

Lemma set_difficulty_same : forall s, set_difficulty (difficulty s) s = s.
Proof. intros s. destruct s; reflexivity. Qed.

Lemma shows_optionCards : forall s q,
  cards s = map (optionCard q) (answers q) -> shows s q.
Proof.
  intros s q H. unfold shows. rewrite H. split.
  - rewrite map_map. cbn. apply map_id.
  - apply Forall_forall. intros c Hc. apply in_map_iff in Hc.
    destruct Hc as (a & <- & _). reflexivity.
Qed.

Lemma renderQuestion_frame : forall s q,
  current s = Some q ->
  exists t, renderQuestion s = Normal t /\
    current t = Some q /\ shows t q /\
    timeLeft t = duration (difficulty s) /\ isFrozen t = false /\
    (score t, streak t, correctCount t, wrongCount t, lifelines t) =
    (score s, streak s, correctCount s, wrongCount s, lifelines s) /\
    (xp t, level t, questions t) = (xp s, level s, questions s).
Proof.
  intros s q Hq. unfold renderQuestion. rewrite Hq.
  eexists. split; [reflexivity|].
  split; [|split; [apply shows_optionCards|]];
    unfold startTimer, clearInterval; cbn -[duration];
    destruct (timer s); try exact Hq; splits; reflexivity.
Qed.

Lemma startNextSet_delivered : forall s q qs,
  exists t, startNextSet (Delivered (q :: qs)) s = Normal t /\
    current t = Some q /\ shows t q /\
    timeLeft t = duration (difficulty s) /\
    score t = 0 /\ streak t = 0 /\ correctCount t = 0 /\ wrongCount t = 0 /\
    lifelines t = mkLifelines true true true /\ isFrozen t = false /\
    xp t = xp s /\ level t = level s /\ questions t = q :: qs.
Proof.
  intros s q qs.
  destruct (renderQuestion_frame (set_questions (q :: qs) (newGame s)) q)
    as (t & Ht & Hq & Hs & Htl & Hfr & Hg & Hx); [reflexivity|].
  exists t. unfold startNextSet. cbv zeta.
  change (renderQuestion (set_questions (q :: qs) (newGame s)) = Normal t)
    in Ht.
  split; [unfold newGame in Ht; cbv zeta in Ht; rewrite Ht; reflexivity|].
  cbn in Hg, Hx. injection Hg as ? ? ? ? ?. injection Hx as ? ? ?.
  splits; assumption.
Qed.

(** X17.  A next set that is delivered starts exactly as a game started from
    the form with the difficulty unchanged, so what holds of sessions holds
    of next sets; experience and level are carried over. *)
Theorem startNextSet_starts_a_session : forall s q qs,
  startNextSet (Delivered (q :: qs)) s =
  dispatch (Start (difficulty s) (q :: qs)) s /\
  exists t, startNextSet (Delivered (q :: qs)) s = Normal t /\
    current t = Some q /\ shows t q /\
    timeLeft t = duration (difficulty s) /\
    score t = 0 /\ streak t = 0 /\ correctCount t = 0 /\ wrongCount t = 0 /\
    lifelines t = mkLifelines true true true /\ isFrozen t = false /\
    xp t = xp s /\ level t = level s.
Proof.
  intros s q qs. split.
  - unfold dispatch. rewrite set_difficulty_same.
    unfold startNextSet, startGame, renderQuestion, current. cbn -[duration].
    reflexivity.
  - destruct (startNextSet_delivered s q qs) as (t & H). exists t. tauto.
Qed.

Lemma goHome_newGame : forall s,
  let t := goHome (newGame s) in
  questions t = [] /\ current t = None /\
  currentQuestionIndex t = Some 0 /\
  currIndex t = 0 /\ score t = 0 /\ streak t = 0 /\
  correctCount t = 0 /\ wrongCount t = 0 /\
  lifelines t = mkLifelines true true true /\ isFrozen t = false /\
  xp t = xp s /\ level t = level s /\
  timers t = timers s /\ cards t = cards s /\
  nextBtn_disabled t = nextBtn_disabled s.
Proof. intros s t. subst t. destruct s. splits; reflexivity. Qed.

(** X18.  A next set that cannot be loaded leads home: the error of the
    fetch, or of rendering an empty set, is caught; the questions are
    gone, the game statistics are those of a new game, and experience,
    level and the countdowns are as they were. *)
Theorem startNextSet_failure_leads_home : forall s fetched,
  (fetched = Delivered [] \/ exists message, fetched = Failed message) ->
  exists t, startNextSet fetched s = Normal t /\
    questions t = [] /\ current t = None /\
    currentQuestionIndex t = Some 0 /\
    currIndex t = 0 /\ score t = 0 /\ streak t = 0 /\
    correctCount t = 0 /\ wrongCount t = 0 /\
    lifelines t = mkLifelines true true true /\ isFrozen t = false /\
    xp t = xp s /\ level t = level s /\
    timers t = timers s /\ cards t = cards s /\
    nextBtn_disabled t = nextBtn_disabled s.
Proof.
  intros s fetched H. exists (goHome (newGame s)). split.
  - destruct H as [-> | [message ->]]; destruct s; reflexivity.
  - apply goHome_newGame.
Qed.

Lemma startNextSet_failure_leads_home_witness :
  exists t, startNextSet (Failed "No questions available.") asked = Normal t /\
    questions t = [] /\ current t = None.
Proof.
  destruct (startNextSet_failure_leads_home asked
              (Failed "No questions available."))
    as (t & H1 & H2 & H3 & _).
  - right. eexists. reflexivity.
  - exists t. splits; assumption.
Defined.

(** X19.  A next set end to end.  With documents in the collection, the
    fetch for at least one question and the start that follows present a
    question made from a document of the collection, its answers in some
    order on the cards, with a fresh game and the experience kept. *)
Theorem startNextSet_after_fetch : forall snapshot retrySnapshot finalSnap
    now amount sd sa s,
  rearranges sd -> (forall k, rearranges (sa k)) -> 1 <= amount ->
  snapshot <> [] \/ retrySnapshot <> [] ->
  exists t q,
    startNextSet
      (fetchQuestions snapshot retrySnapshot finalSnap now amount sd sa) s =
    Normal t /\
    current t = Some q /\ shows t q /\ shuffled q /\
    drawnFrom (snapshot ++ retrySnapshot) (questions t) /\
    1 <= Z.of_nat (List.length (questions t)) <= amount /\
    score t = 0 /\ lifelines t = mkLifelines true true true /\
    xp t = xp s /\ level t = level s.
Proof.
  intros snapshot retry final now amount sd sa s Hsd Hsa Ha Hne.
  assert (Hs : supply now snapshot retry <> []).
  { unfold supply. destruct snapshot as [|d0 snap].
    - destruct Hne as [Hne | Hne]; [contradiction | exact Hne].
    - destruct (filter (fresh now) (d0 :: snap)); discriminate. }
  destruct (fetchQuestions_supply snapshot retry final now amount sd sa
              Hsd Ha Hs) as [Hcut Hf].
  rewrite Hf.
  set (docs := slice (sd (supply now snapshot retry)) amount) in *.
  destruct (toGame_spec sa docs 0 Hsa) as [Hsh Hdr].
  assert (Hlen : Z.of_nat (List.length (toGame sa 0 docs)) <= amount).
  { rewrite toGame_length. subst docs.
    destruct (slice_positive _ (sd (supply now snapshot retry)) amount Ha)
      as [_ ->]. lia. }
  assert (Hin : drawnFrom (snapshot ++ retry) (toGame sa 0 docs)).
  { eapply drawnFrom_incl; [|exact Hdr]. intros d Hd. subst docs.
    destruct (slice_positive _ (sd (supply now snapshot retry)) amount Ha)
      as [E _]. rewrite E in Hd. apply In_firstn in Hd.
    apply (Permutation_in _ (Hsd _)) in Hd. apply in_or_app.
    unfold supply in Hd.
    destruct snapshot as [|d0 snap]; [right; exact Hd | left].
    destruct (filter (fresh now) (d0 :: snap)) eqn:Ef; [exact Hd|].
    rewrite <- Ef in Hd. apply filter_In in Hd. tauto. }
  destruct (toGame sa 0 docs) as [|q qs] eqn:Eg.
  { apply (f_equal (@List.length _)) in Eg. rewrite toGame_length in Eg.
    destruct docs; [contradiction | discriminate]. }
  destruct (startNextSet_delivered s q qs)
    as (t & Ht & Hq & Hshow & _ & Hsc & _ & _ & _ & Hl & _ & Hxp & Hlv & Hqs).
  exists t, q. rewrite Hqs.
  split; [exact Ht|]. split; [exact Hq|]. split; [exact Hshow|].
  split; [inversion Hsh; assumption|]. split; [exact Hin|].
  split; [cbn [List.length] in *; lia|]. auto.
Qed.

Lemma startNextSet_after_fetch_witness :
  exists t q,
    startNextSet
      (fetchQuestions [doc1; doc2] [] [] now0 5 (@rev _) (fun _ => @rev _))
      asked = Normal t /\
    current t = Some q /\ shows t q /\ shuffled q.
Proof.
  destruct (startNextSet_after_fetch [doc1; doc2] [] [] now0 5 (@rev _)
              (fun _ => @rev _) asked)
    as (t & q & H1 & H2 & H3 & H4 & _).
  - apply rearranges_rev.
  - intros k. apply rearranges_rev.
  - lia.
  - left. discriminate.
  - exists t, q. splits; assumption.
Defined.

(** ** The result screen *)

Lemma message_eqb_eq : forall a b, message_eqb a b = true -> a = b.
Proof. intros [] []; cbn; intros [=]; reflexivity. Qed.

Lemma endGame_table :
  forallb
    (fun c =>
       forallb
         (fun w =>
            if 100 <? c + w then true
            else if c + w =? 0 then true
            else
              (accuracy c w =?
               (if 17 * c =? 23 * w then 57 else accuracyExact c w)) &&
              message_eqb (finalMessage (accuracy c w)) (grade c w))
         (upto 101))
    (upto 101) = true.
Proof. vm_compute. reflexivity. Qed.

Lemma accuracy_upto_100 : forall c w,
  0 <= c -> 0 <= w -> 0 < c + w <= 100 ->
  accuracy c w = (if 17 * c =? 23 * w then 57 else accuracyExact c w) /\
  finalMessage (accuracy c w) = grade c w.
Proof.
  intros c w Hc Hw Ht.
  pose proof endGame_table as T.
  rewrite forallb_forall in T. specialize (T c (In_upto 101 c ltac:(lia))).
  rewrite forallb_forall in T. specialize (T w (In_upto 101 w ltac:(lia))).
  destruct (100 <? c + w) eqn:E1; [apply Z.ltb_lt in E1; lia|].
  destruct (c + w =? 0) eqn:E2; [apply Z.eqb_eq in E2; lia|].
  apply andb_true_iff in T. destruct T as [Ta Tm].
  apply Z.eqb_eq in Ta. apply message_eqb_eq in Tm. split; assumption.
Qed.

Lemma accuracyExact_bounds : forall c w,
  0 <= c -> 0 <= w -> 0 < c + w ->
  0 <= accuracyExact c w <= 100 /\
  (accuracyExact c w = 100 <-> 199 * w <= c).
Proof.
  intros c w Hc Hw Ht. unfold accuracyExact.
  assert ((0 <? c + w) = true) as -> by (apply Z.ltb_lt; lia).
  assert (Hup : (200 * c + (c + w)) / (2 * (c + w)) <= 100)
    by (apply Z.lt_succ_r; apply Z.div_lt_upper_bound; lia).
  split.
  - split; [apply Z.div_pos; lia | exact Hup].
  - split; intros H.
    + assert (100 * (2 * (c + w)) <= 200 * c + (c + w)); [|lia].
      rewrite <- H at 1. rewrite Z.mul_comm. apply Z.mul_div_le. lia.
    + apply Z.le_antisymm; [exact Hup|].
      apply Z.div_le_lower_bound; lia.
Qed.

Lemma endGame_result : forall s,
  result (endGame s) =
  Some (mkSummary (score s) (correctCount s) (wrongCount s)
          (accuracy (correctCount s) (wrongCount s))
          (finalMessage (accuracy (correctCount s) (wrongCount s)))) /\
  xpGained (endGame s) = score s /\ xp (endGame s) = xp s.
Proof. intros s. destruct s. splits; reflexivity. Qed.

(** X20.  The result screen of a session with up to 100 recorded answers.
    The accuracy is the exactly rounded percentage, except at 57.5 percent
    (23 correct for 17 wrong, or 46 for 34), which is shown as 57; the
    message is the one of the exact percentage; the experience announced
    is the score. *)
Theorem endGame_summary : forall s,
  0 <= correctCount s -> 0 <= wrongCount s ->
  0 < correctCount s + wrongCount s <= 100 ->
  let c := correctCount s in
  let w := wrongCount s in
  exists r, result (endGame s) = Some r /\
    final_score r = score s /\ correct_count r = c /\ wrong_count r = w /\
    accuracy_percent r = (if 17 * c =? 23 * w then 57 else accuracyExact c w) /\
    0 <= accuracy_percent r <= 100 /\
    (accuracy_percent r = 100 <-> w = 0) /\
    final_message r = grade c w /\
    xpGained (endGame s) = score s /\ xp (endGame s) = xp s.
Proof.
  intros s Hc Hw Ht c w.
  destruct (endGame_result s) as (Hr & Hg & Hx).
  destruct (accuracy_upto_100 c w Hc Hw Ht) as [Ha Hm].
  destruct (accuracyExact_bounds c w Hc Hw ltac:(lia)) as [Hb H100].
  eexists. split; [exact Hr|].
  cbn [final_score correct_count wrong_count accuracy_percent final_message].
  fold c w. rewrite Hm, Ha.
  splits; try reflexivity; try assumption.
  - destruct (17 * c =? 23 * w); lia.
  - destruct (17 * c =? 23 * w); lia.
  - destruct (17 * c =? 23 * w) eqn:E.
    + apply Z.eqb_eq in E. split; intros; lia.
    + rewrite H100. subst c w. split; intros; lia.
Qed.

Lemma endGame_summary_witness :
  exists r,
    result (endGame (set_wrongCount 17 (set_correctCount 23 STATE))) = Some r /\
    accuracy_percent r = 57 /\ final_message r = KeepPracticing.
Proof.
  destruct (endGame_summary (set_wrongCount 17 (set_correctCount 23 STATE)))
    as (r & H1 & _ & _ & _ & H5 & _ & _ & H8 & _).
  - vm_compute. discriminate.
  - vm_compute. discriminate.
  - vm_compute. split; [reflexivity | discriminate].
  - exists r. splits; [exact H1 | exact H5 | exact H8].
Defined.

(** ** Persistence *)

Lemma orElse_Some : forall v d, v <> 0 -> orElse (Some v) d = v.
Proof. intros v d H. destruct v; [contradiction | reflexivity | reflexivity]. Qed.

Lemma orElse_same : forall v, orElse (Some v) v = v.
Proof. intros v. destruct v; reflexivity. Qed.

Lemma orElse_zero : forall v, orElse (Some v) 0 = v.
Proof. intros v. destruct v; reflexivity. Qed.

Lemma setDoc_same : forall id d u, setDoc id d u id = Some d.
Proof. intros id d u. unfold setDoc. rewrite String.eqb_refl. reflexivity. Qed.

Lemma setDoc_other : forall id id' d u, id' <> id -> setDoc id d u id' = u id'.
Proof.
  intros id id' d u H. unfold setDoc.
  destruct (String.eqb_spec id' id); [contradiction | reflexivity].
Qed.

Lemma set_xp_level_same : forall s, set_level (level s) (set_xp (xp s) s) = s.
Proof. intros s. destruct s; reflexivity. Qed.

Lemma save_totals : forall name auth e u,
  name <> ""%string ->
  let id := userId auth name in
  totalScore (save (Some name) auth e u id) =
    totalScore (u id) + fst (saved e) /\
  totalGames (save (Some name) auth e u id) =
    totalGames (u id) + snd (saved e) /\
  (forall id', id' <> id -> save (Some name) auth e u id' = u id').
Proof.
  intros name auth e u Hn id.
  destruct e as [[|] s | [|] s]; cbn [save saved fst snd].
  - unfold saveHighScore. destruct name as [|c name]; [contradiction|].
    fold id. rewrite setDoc_same. cbn [totalScore totalGames doc_score doc_totalGames].
    rewrite !orElse_zero. splits.
    + unfold totalScore. destruct (u id); lia.
    + unfold totalGames. destruct (u id); lia.
    + intros id' H. apply setDoc_other. exact H.
  - unfold saveHighScore. destruct name; [contradiction|]. splits; auto; lia.
  - unfold saveUserData. cbn [users quiz_userdata].
    destruct auth as [uid|]; cbn [users].
    + subst id. cbn [userId]. rewrite setDoc_same. splits.
      * unfold mergeProgress, totalScore. destruct (u uid); cbn; lia.
      * unfold mergeProgress, totalGames. destruct (u uid); cbn; lia.
      * intros id' H. apply setDoc_other. exact H.
    + splits; auto; lia.
  - unfold saveUserData. cbn [users quiz_userdata].
    destruct auth; cbn [users]; splits; auto; lia.
Qed.

(** X21.  The leaderboard document of a player accumulates: over any
    sequence of high-score and progress writes it stands for the old total
    plus the scores of the games whose high-score write went through, and
    for as many games more; progress writes, which merge into the same
    document when the player is logged in, do not disturb the totals, and
    no other document is touched. *)
Theorem saveHighScore_accumulates : forall name auth es u,
  name <> ""%string ->
  let id := userId auth name in
  let u' := saves (Some name) auth es u in
  totalScore (u' id) = totalScore (u id) + fold_right Z.add 0 (map (fun e => fst (saved e)) es) /\
  totalGames (u' id) = totalGames (u id) + fold_right Z.add 0 (map (fun e => snd (saved e)) es) /\
  (forall id', id' <> id -> u' id' = u id').
Proof.
  intros name auth es u Hn id. revert u.
  induction es as [|e es IH]; intros u u'.
  - subst u'. cbn. splits; auto; lia.
  - subst u'. unfold saves in *. cbn [fold_left map fold_right].
    destruct (save_totals name auth e u Hn) as (H1 & H2 & H3).
    destruct (IH (save (Some name) auth e u)) as (I1 & I2 & I3).
    fold id in H1, H2, H3. splits.
    + rewrite I1, H1. lia.
    + rewrite I2, H2. lia.
    + intros id' H. rewrite I3 by exact H. apply H3. exact H.
Qed.

Lemma saveHighScore_accumulates_witness :
  let es := [HighScore true (set_score 35 STATE); Progress true STATE;
             HighScore false (set_score 50 STATE);
             HighScore true (set_score 20 STATE)] in
  let u' := saves (Some "Ada"%string) None es (fun _ => None) in
  totalScore (u' "guest_Ada"%string) = 55 /\
  totalGames (u' "guest_Ada"%string) = 2.
Proof.
  intros es.
  destruct (saveHighScore_accumulates "Ada"%string None es (fun _ => None))
    as (H1 & H2 & _).
  - discriminate.
  - cbv zeta. split; [exact H1 | exact H2].
Defined.

(** X22.  Progress that is saved is what is loaded: for a guest from
    [localStorage], for a logged-in player from the cloud when the write
    went through.  (A level of 0 would come back as 1, or as the level
    computed from the experience.) *)
Theorem saved_progress_is_loaded : forall uid online s s0 st,
  uid = None \/ online = true ->
  level s <> 0 ->
  loadUserData uid uid true s0 (saveUserData uid online s st) =
  (set_level (level s) (set_xp (xp s) s0), saveUserData uid online s st).
Proof.
  intros uid online s s0 st H Hl.
  unfold loadUserData.
  destruct uid as [[|c uid]|].
  - unfold saveUserData at 1. destruct online; cbn [quiz_userdata];
      rewrite orElse_zero, orElse_Some by exact Hl; reflexivity.
  - destruct H as [H | ->]; [discriminate|].
    unfold saveUserData at 1. cbn [users quiz_userdata].
    rewrite setDoc_same. unfold mergeProgress.
    destruct (users st (String c uid)); cbn [doc_xp doc_level];
      rewrite !orElse_zero, orElse_Some by exact Hl; reflexivity.
  - unfold saveUserData at 1. cbn [quiz_userdata].
    rewrite orElse_zero, orElse_Some by exact Hl. reflexivity.
Qed.

Lemma saved_progress_is_loaded_witness :
  let s := set_level 3 (set_xp 250 STATE) in
  loadUserData None None true STATE
    (saveUserData None false s (mkStorage None (fun _ => None))) =
  (set_level (level s) (set_xp (xp s) STATE),
   saveUserData None false s (mkStorage None (fun _ => None))).
Proof.
  intros s.
  apply (saved_progress_is_loaded None false s STATE
           (mkStorage None (fun _ => None))).
  - left. reflexivity.
  - discriminate.
Defined.

(** X23.  Synchronising with the cloud twice is synchronising once: the
    second run changes neither the state nor the storage. *)
Theorem syncCloudData_idempotent : forall uid online s st,
  let r := syncCloudData uid online s st in
  syncCloudData uid online (fst r) (snd r) = r.
Proof.
  intros uid online s st r. subst r. unfold syncCloudData.
  destruct online; [|reflexivity].
  destruct (users st uid) as [data|] eqn:E; cbn [fst snd].
  - rewrite E. f_equal.
    assert (X : orElse (doc_xp data) (orElse (doc_xp data) (xp s)) =
                orElse (doc_xp data) (xp s))
      by (destruct (doc_xp data) as [[| |]|]; reflexivity).
    assert (L : orElse (doc_level data) (orElse (doc_level data) (level s)) =
                orElse (doc_level data) (level s))
      by (destruct (doc_level data) as [[| |]|]; reflexivity).
    destruct s. cbn in *. rewrite X, L. reflexivity.
  - unfold saveUserData at 1. cbn [users quiz_userdata].
    rewrite setDoc_same. rewrite E. cbn [mergeProgress doc_xp doc_level].
    change (level (set_xp (orElse (Some (xp s)) (xp s)) s)) with (level s).
    rewrite !orElse_same. rewrite set_xp_level_same. reflexivity.
Qed.
